(** * K-means clustering (hard assignment): a model of [hard_assignment.py]

    The development embeds the methods of class [KMeans] from
    [UnsupervisedLearning/Clustering/algorithms/hard_assignment.py] and
    proves properties of them.

    The program computes in double precision, through numpy, scipy and
    scikit-learn.  It is embedded twice.

    - Over exact rationals ([Q]), with squared distances in the place of
      distances.  This embedding carries the statements about control flow,
      shapes, exceptions and the way the results of the methods refer to
      one another, which do not depend on how the arithmetic rounds; the
      numbers shown in its examples are exact values.  [smart_initialize]
      is embedded here only.
    - Over a [Num.Library]: a type of numbers with the operations the
      source applies to them.  Nothing is assumed of the operations; what a
      statement needs of them is a hypothesis of the statement, and IEEE
      754 double precision meets each of these hypotheses.  This embedding
      carries the statements about the numbers themselves: the distances
      behind an assignment, the heterogeneity, the choice between runs.
      Its instance [Num.binary64] computes with the primitive floats.

    Conventions common to both.

    - A row vector is a list of numbers, a matrix a list of rows.
    - The dataset is a sparse matrix, as the calls [toarray()] and [.A1]
      require.  Its mean over no rows divides [1.0] by the row count 0 and
      raises; no NaN centroid is produced.
    - A Python exception is a [Raise]; every method returns a [result].
    - The process-wide generator [np.random] is an explicit state threaded
      through the methods that draw from it; the wall clock read by
      [time.time()] is a function of the trial number.
    - [verbose] only prints; it is left out. *)

From Stdlib Require Import QArith Lqa Lia Floats.
From stdpp Require Import base list gmap.

Local Open Scope Q_scope.

Module KMeans.

(** * The program over exact rationals *)

(** ** Exceptions *)

Inductive exn := ValueError | IndexError | ZeroDivisionError | TypeError.

Inductive result (A : Type) : Type :=
| Ok (a : A)
| Raise (e : exn).
Arguments Ok {A} a.
Arguments Raise {A} e.

(** Sequencing: the first exception raised ends the computation. *)
#[export] Instance result_ret : MRet result := fun _ a => Ok a.
#[export] Instance result_bind : MBind result := fun _ _ f m =>
  match m with
  | Ok a => f a
  | Raise e => Raise e
  end.

(** ** Data *)

Abbreviation point := (list Q) (only parsing).
Abbreviation matrix := (list (list Q)) (only parsing).
Abbreviation assignment := (list nat) (only parsing).

(** ** Library primitives *)

(** Squared Euclidean distance between two rows. *)
Fixpoint sq_euclidean (x y : point) : Q :=
  match x, y with
  | a :: x', b :: y' => (a - b) * (a - b) + sq_euclidean x' y'
  | _, _ => 0
  end.

(** [pairwise_distances(X, Y, metric='euclidean') ** 2]: entry (j, i) is the
    squared distance from row j of X to row i of Y. *)
Definition pairwise_sq_distances (X Y : matrix) : list (list Q) :=
  map (fun x => map (sq_euclidean x) Y) X.

(** [np.sum] of a vector. *)
Definition Qsum (l : list Q) : Q := fold_right Qplus 0 l.

(** [np.argmin] of one row: position of the first minimum.  The scan keeps
    the best value seen and replaces it only on a strictly smaller one. *)
Fixpoint argmin_from (best : Q) (bi i : nat) (l : list Q) : nat :=
  match l with
  | [] => bi
  | x :: l' =>
      match Qcompare x best with
      | Lt => argmin_from x i (S i) l'
      | _ => argmin_from best bi (S i) l'
      end
  end.

Definition argmin_row (row : list Q) : nat :=
  match row with
  | [] => 0%nat
  | x :: l => argmin_from x 0 1 l
  end.

(** [np.min(M, axis=1)] of a matrix with at least one column. *)
Definition Qmin (a b : Q) : Q := match Qcompare a b with Gt => b | _ => a end.

Definition min_row (row : list Q) : Q :=
  match row with
  | [] => 0
  | x :: l => fold_left Qmin l x
  end.

(** The rows of [data] whose label is [i], in order. *)
Definition rows_labelled (data : matrix) (cluster_assignment : assignment)
  (i : nat) : matrix :=
  map fst (List.filter (fun pc => Nat.eqb (snd pc) i)
                       (combine data cluster_assignment)).

(** [data[mask]] for the boolean mask [cluster_assignment == i].  A mask of
    the wrong length is an [IndexError]. *)
Definition members (data : matrix) (cluster_assignment : assignment) (i : nat)
  : result matrix :=
  if Nat.eqb (length cluster_assignment) (length data)
  then Ok (rows_labelled data cluster_assignment i)
  else Raise IndexError.

(** Coordinate-wise sum of the rows of a matrix with at least one row. *)
Fixpoint vadd (x y : point) : point :=
  match x, y with
  | a :: x', b :: y' => (a + b) :: vadd x' y'
  | _, _ => []
  end.

Definition col_sum (rows : matrix) : point :=
  match rows with
  | [] => []
  | r :: rs => fold_left vadd rs r
  end.

(** [np.mean(rows, axis=0)]: the column sums scaled by [1.0 / rows.shape[0]];
    with no row the division [1.0 / 0] raises. *)
Definition mean_axis0 (rows : matrix) : result point :=
  match rows with
  | [] => Raise ZeroDivisionError
  | _ => Ok (map (fun s => s / inject_Z (Z.of_nat (length rows))) (col_sum rows))
  end.

(** [data[rand_indices, :]]: the rows at the given positions. *)
Fixpoint take_rows (data : matrix) (idxs : list nat) : result matrix :=
  match idxs with
  | [] => Ok []
  | i :: rest =>
      match data !! i with
      | None => Raise IndexError
      | Some r => rs ← take_rows data rest; Ok (r :: rs)
      end
  end.

(** ** The random generator

    [np.random] is used through [seed], [randint] and [choice].  What the
    model needs of it is that an integer draw below [n] is below [n] and
    that a weighted draw returns a position of the weight vector. *)

Record Generator : Type := {
  gstate : Type;
  reseed : Z -> gstate;
  draw_int : gstate -> nat -> nat * gstate;
  draw_choice : gstate -> list Q -> nat * gstate;
  draw_int_lt : forall g n, (0 < n)%nat -> (fst (draw_int g n) < n)%nat;
  draw_choice_lt : forall g p, (0 < length p)%nat ->
                               (fst (draw_choice g p) < length p)%nat
}.

Section WithGenerator.

Context (G : Generator).

(** [np.random.seed(s)]: the seed must fit 32 bits. *)
Definition np_random_seed (s : Z) : result (gstate G) :=
  if ((0 <=? s) && (s <? 2 ^ 32))%Z then Ok (reseed G s) else Raise ValueError.

Definition seed_if_given (seed : option Z) (g : gstate G) : result (gstate G) :=
  match seed with
  | Some s => np_random_seed s
  | None => Ok g
  end.

Fixpoint draws (g : gstate G) (n k : nat) : list nat * gstate G :=
  match k with
  | O => ([], g)
  | S k' =>
      let '(i, g1) := draw_int G g n in
      let '(rest, g2) := draws g1 n k' in
      (i :: rest, g2)
  end.

(** [np.random.randint(0, n, k)]: [k] draws from [0, n).  A negative size is
    a [ValueError], and so is an empty range unless no draw is asked for. *)
Definition randint (g : gstate G) (n : nat) (k : Z)
  : result (list nat * gstate G) :=
  if (k <? 0)%Z then Raise ValueError
  else if Nat.eqb n 0 && negb (k =? 0)%Z then Raise ValueError
  else Ok (draws g n (Z.to_nat k)).

(** ** [get_initial_centroids] *)

Definition get_initial_centroids (data : matrix) (k : Z) (seed : option Z)
  (g : gstate G) : result (matrix * gstate G) :=
  g1 ← seed_if_given seed g;
  let n := length data in
  '(rand_indices, g2) ← randint g1 n k;
  centroids ← take_rows data rand_indices;
  Ok (centroids, g2).

(** ** [smart_initialize] *)

(** [data[idx, :]] for one position. *)
Definition row_at (data : matrix) (idx : nat) : result point :=
  match data !! idx with
  | Some r => Ok r
  | None => Raise IndexError
  end.

(** The body of [for i in range(1, k)], run [n] times: [centroids] holds the
    rows filled so far, [squared_distances] the squared distance of every
    point to the nearest of them.  A zero total makes the weights NaN, which
    [np.random.choice] rejects. *)
Fixpoint smart_loop (data : matrix) (n : nat) (centroids : matrix)
  (squared_distances : list Q) (g : gstate G) : result (matrix * gstate G) :=
  match n with
  | O => Ok (centroids, g)
  | S n' =>
      let total := Qsum squared_distances in
      if Qeq_bool total 0 then Raise ValueError
      else
        let '(idx, g1) :=
          draw_choice G g (map (fun d => d / total) squared_distances) in
        row ← row_at data idx;
        let centroids' := centroids ++ [row] in
        smart_loop data n' centroids'
          (map min_row (pairwise_sq_distances data centroids')) g1
  end.

Definition smart_initialize (data : matrix) (k : Z) (seed : option Z)
  (g : gstate G) : result (matrix * gstate G) :=
  g1 ← seed_if_given seed g;
  if (k <? 0)%Z then Raise ValueError            (* np.zeros((k, d)) *)
  else if Nat.eqb (length data) 0 then Raise ValueError   (* randint(0) *)
  else
    let '(idx, g2) := draw_int G g1 (length data) in
    if (k =? 0)%Z then Raise IndexError          (* centroids[0] = ... *)
    else
      row ← row_at data idx;
      let squared_distances := concat (pairwise_sq_distances data [row]) in
      smart_loop data (Z.to_nat k - 1) [row] squared_distances g2.

End WithGenerator.

(** ** [assign_clusters] *)

(** [np.argmin(distances, axis=1)]; with no centroid the rows are empty and
    [argmin] raises. *)
Definition assign_clusters (data centroids : matrix) : result assignment :=
  let distances := pairwise_sq_distances data centroids in
  match centroids with
  | [] => Raise ValueError
  | _ => Ok (map argmin_row distances)
  end.

(** ** [revise_centroids] *)

Fixpoint revise_loop (data : matrix) (cluster_assignment : assignment)
  (clusters : list nat) : result matrix :=
  match clusters with
  | [] => Ok []
  | i :: rest =>
      member_data_points ← members data cluster_assignment i;
      centroid ← mean_axis0 member_data_points;
      new_centroids ← revise_loop data cluster_assignment rest;
      Ok (centroid :: new_centroids)
  end.

Definition revise_centroids (data : matrix) (k : Z)
  (cluster_assignment : assignment) : result matrix :=
  revise_loop data cluster_assignment (seq 0 (Z.to_nat k)).

(** ** [compute_heterogeneity] *)

(** The loop over clusters.  [select i] stands for the row selection
    [data[cluster_assignment == i, :]]. *)
Fixpoint heterogeneity_loop (select : nat -> result matrix) (centroids : matrix)
  (clusters : list nat) (heterogeneity : Q) : result Q :=
  match clusters with
  | [] => Ok heterogeneity
  | i :: rest =>
      member_data_points ← select i;
      if (0 <? length member_data_points)%nat then
        c ← row_at centroids i;
        let squared_distances := pairwise_sq_distances member_data_points [c] in
        heterogeneity_loop select centroids rest
          (heterogeneity + Qsum (concat squared_distances))
      else
        heterogeneity_loop select centroids rest heterogeneity
  end.

Definition compute_heterogeneity (data : matrix) (k : Z) (centroids : matrix)
  (cluster_assignment : assignment) : result Q :=
  heterogeneity_loop (members data cluster_assignment) centroids
    (seq 0 (Z.to_nat k)) 0.

(** ** [run_kmeans] *)

(** [(prev_cluster_assignment == cluster_assignment).all()] *)
Fixpoint all_equal (a b : assignment) : bool :=
  match a, b with
  | [], [] => true
  | x :: a', y :: b' => Nat.eqb x y && all_equal a' b'
  | _, _ => false
  end.

(** What the loop leaves behind: the two returned values, the number of
    iterations entered and whether the loop was left through [break]. *)
Record loop_end := {
  end_centroids : matrix;
  end_assignment : option assignment;
  end_iterations : nat;
  end_converged : bool
}.

(** [for itr in range(maxiter)], with [fuel] iterations left.  The list
    [record_heterogeneity] belongs to the caller: what was appended before an
    exception stays appended, so it is returned beside the result. *)
Fixpoint kmeans_loop (data : matrix) (k : Z) (fuel itr : nat)
  (centroids : matrix) (prev_cluster_assignment cluster_assignment : option assignment)
  (record_heterogeneity : option (list Q))
  : result loop_end * option (list Q) :=
  match fuel with
  | O => (Ok {| end_centroids := centroids;
                end_assignment := cluster_assignment;
                end_iterations := itr;
                end_converged := false |}, record_heterogeneity)
  | S fuel' =>
      match assign_clusters data centroids with
      | Raise e => (Raise e, record_heterogeneity)
      | Ok cluster_assignment' =>
          match revise_centroids data k cluster_assignment' with
          | Raise e => (Raise e, record_heterogeneity)
          | Ok centroids' =>
              if match prev_cluster_assignment with
                 | Some prev => all_equal prev cluster_assignment'
                 | None => false
                 end
              then (Ok {| end_centroids := centroids';
                          end_assignment := Some cluster_assignment';
                          end_iterations := S itr;
                          end_converged := true |}, record_heterogeneity)
              else
                match record_heterogeneity with
                | None =>
                    kmeans_loop data k fuel' (S itr) centroids'
                      (Some cluster_assignment') (Some cluster_assignment') None
                | Some history =>
                    match compute_heterogeneity data k centroids' cluster_assignment' with
                    | Raise e => (Raise e, record_heterogeneity)
                    | Ok score =>
                        kmeans_loop data k fuel' (S itr) centroids'
                          (Some cluster_assignment') (Some cluster_assignment')
                          (Some (history ++ [score]))
                    end
                end
          end
      end
  end.

Definition run_loop (data : matrix) (k : Z) (initial_centroids : matrix)
  (maxiter : Z) (record_heterogeneity : option (list Q))
  : result loop_end * option (list Q) :=
  kmeans_loop data k (Z.to_nat maxiter) 0 initial_centroids None None
    record_heterogeneity.

(** [run_kmeans] returns the pair [(centroids, cluster_assignment)]; the
    second component is the caller's list after the call. *)
Definition run_kmeans (data : matrix) (k : Z) (initial_centroids : matrix)
  (maxiter : Z) (record_heterogeneity : option (list Q))
  : result (matrix * option assignment) * option (list Q) :=
  let '(r, history) := run_loop data k initial_centroids maxiter record_heterogeneity in
  (e ← r; Ok (end_centroids e, end_assignment e), history).

(** ** [kmeans_multiple_runs] *)

Section Driver.

(** A run whose loop was never entered returns [cluster_assignment = None],
    and [compute_heterogeneity] then selects rows with the scalar
    [None == i], which is [False].  What a matrix returns for the index
    [False] is the matrix library's business (numpy selects no row, scipy's
    sparse matrices read it as row 0), so the driver is modelled for any such
    reading, [unlabelled_rows]. *)
Context (G : Generator) (unlabelled_rows : list (list Q) -> result (list (list Q))).

(** The local variables of the method.  [min_heterogeneity_achieved] starts
    at [float('inf')], written [None]. *)
Record driver_state := {
  heterogeneity : gmap Z Q;
  min_heterogeneity_achieved : option Q;
  best_seed : option Z;
  final_centroids : option matrix;
  final_cluster_assignment : option assignment;
  rng : gstate G
}.

Definition driver_init (g : gstate G) : driver_state :=
  {| heterogeneity := ∅;
     min_heterogeneity_achieved := None;
     best_seed := None;
     final_centroids := None;
     final_cluster_assignment := None;
     rng := g |}.

(** [h < min_heterogeneity_achieved] *)
Definition below (h : Q) (m : option Q) : bool :=
  match m with
  | None => true
  | Some m' => match Qcompare h m' with Lt => true | _ => false end
  end.

(** The seed of trial [i]: [seed_list[i]], or the clock. *)
Definition trial_seed (seed_list : option (list Z)) (now : nat -> Z) (i : nat)
  : result Z :=
  match seed_list with
  | Some l => match l !! i with
              | Some s => Ok s
              | None => Raise IndexError
              end
  | None => Ok (now i)
  end.

(** [compute_heterogeneity] on what a run returned. *)
Definition final_heterogeneity (data : matrix) (k : Z) (centroids : matrix)
  (cluster_assignment : option assignment) : result Q :=
  match cluster_assignment with
  | Some a => compute_heterogeneity data k centroids a
  | None =>
      heterogeneity_loop (fun _ => unlabelled_rows data) centroids
        (seq 0 (Z.to_nat k)) 0
  end.

(** One trial from its seed: seeding, initial centroids, the run, its
    heterogeneity. *)
Definition trial (data : matrix) (k maxiter : Z) (seed : Z)
  : result (matrix * option assignment * Q * gstate G) :=
  g1 ← np_random_seed G seed;
  '(initial_centroids, g2) ← get_initial_centroids G data k (Some seed) g1;
  '(centroids, cluster_assignment) ←
    fst (run_kmeans data k initial_centroids maxiter None);
  h ← final_heterogeneity data k centroids cluster_assignment;
  Ok (centroids, cluster_assignment, h, g2).

(** The end of the loop body: enter the run in the table and keep it if it
    is strictly better than the best so far. *)
Definition record_trial (st : driver_state) (seed : Z) (centroids : matrix)
  (cluster_assignment : option assignment) (h : Q) (g : gstate G)
  : driver_state :=
  let heterogeneity' := <[seed := h]> (heterogeneity st) in
  if below h (min_heterogeneity_achieved st) then
    {| heterogeneity := heterogeneity';
       min_heterogeneity_achieved := Some h;
       best_seed := Some seed;
       final_centroids := Some centroids;
       final_cluster_assignment := cluster_assignment;
       rng := g |}
  else
    {| heterogeneity := heterogeneity';
       min_heterogeneity_achieved := min_heterogeneity_achieved st;
       best_seed := best_seed st;
       final_centroids := final_centroids st;
       final_cluster_assignment := final_cluster_assignment st;
       rng := g |}.

Fixpoint driver_loop (data : matrix) (k maxiter : Z)
  (seed_list : option (list Z)) (now : nat -> Z) (trials : list nat)
  (st : driver_state) : result driver_state :=
  match trials with
  | [] => Ok st
  | i :: rest =>
      seed ← trial_seed seed_list now i;
      '(centroids, cluster_assignment, h, g) ← trial data k maxiter seed;
      driver_loop data k maxiter seed_list now rest
        (record_trial st seed centroids cluster_assignment h g)
  end.

Definition run_driver (data : matrix) (k maxiter num_runs : Z)
  (seed_list : option (list Z)) (now : nat -> Z) (g : gstate G)
  : result driver_state :=
  driver_loop data k maxiter seed_list now (seq 0 (Z.to_nat num_runs))
    (driver_init g).

Definition kmeans_multiple_runs (data : matrix) (k maxiter num_runs : Z)
  (seed_list : option (list Z)) (now : nat -> Z) (g : gstate G)
  : result (option matrix * option assignment) :=
  st ← run_driver data k maxiter num_runs seed_list now g;
  Ok (final_centroids st, final_cluster_assignment st).

End Driver.

(** ** A generator to run the model on

    [digits] reads its draws off a number: a draw below [n] is the lowest
    base-[n] digit of the state, and the state loses that digit.  A weighted
    draw does the same among the positions of positive weight.  The seed is
    the starting number, so every sequence of draws is the answer to some
    seed. *)

Definition positive_positions (p : list Q) : list nat :=
  List.filter (fun i => match Qcompare 0 (nth i p 0) with Lt => true | _ => false end)
              (seq 0 (length p)).

Definition digits_int (g : Z) (n : nat) : nat * Z :=
  (Z.to_nat (g mod Z.of_nat n), (g / Z.of_nat n)%Z).

Definition digits_choice (g : Z) (p : list Q) : nat * Z :=
  let c := positive_positions p in
  (nth (Z.to_nat (g mod Z.of_nat (length c))) c 0%nat,
   (g / Z.of_nat (length c))%Z).

Lemma digits_int_lt (g : Z) (n : nat) : (0 < n)%nat -> (fst (digits_int g n) < n)%nat.
Proof.
  intros Hn. simpl.
  pose proof (Z.mod_pos_bound g (Z.of_nat n)). lia.
Qed.

Lemma positive_positions_lt (p : list Q) :
  Forall (fun i => (i < length p)%nat) (positive_positions p).
Proof.
  unfold positive_positions. apply Forall_forall. intros i Hi.
  apply list_elem_of_In, filter_In in Hi. destruct Hi as [Hi _].
  apply in_seq in Hi. lia.
Qed.

Lemma digits_choice_lt (g : Z) (p : list Q) :
  (0 < length p)%nat -> (fst (digits_choice g p) < length p)%nat.
Proof.
  intros Hp. unfold digits_choice. cbn [fst].
  pose proof (positive_positions_lt p) as Hall.
  destruct (positive_positions p) as [|c0 cs] eqn:E.
  - by destruct (Z.to_nat _).
  - rewrite Forall_forall in Hall. apply Hall.
    apply list_elem_of_In, nth_In.
    pose proof (Z.mod_pos_bound g (Z.of_nat (length (c0 :: cs)))).
    simpl length in *. lia.
Qed.

Definition digits : Generator :=
  {| gstate := Z;
     reseed := fun s => s;
     draw_int := digits_int;
     draw_choice := digits_choice;
     draw_int_lt := digits_int_lt;
     draw_choice_lt := digits_choice_lt |}.

(** The two readings of the scalar index [False]. *)
Definition no_row (data : matrix) : result matrix := Ok [].

Definition row_zero (data : matrix) : result matrix :=
  match data with
  | r :: _ => Ok [r]
  | [] => Raise IndexError
  end.

(** The clock used in examples: trial [i] reads [1700000000 + i]. *)
Definition ticking (i : nat) : Z := (1700000000 + Z.of_nat i)%Z.

(** The four points of the worked example. *)
Definition square4 : matrix := [[0; 0]; [0; 1]; [10; 0]; [10; 1]].

(** ** Vocabulary of the statements *)

(** [first_min row r]: position [r] holds a value no entry of [row] is
    below, and every earlier entry is strictly above it. *)
Definition first_min (row : list Q) (r : nat) : Prop :=
  exists v, row !! r = Some v /\
            (forall j w, row !! j = Some w -> v <= w) /\
            (forall j w, (j < r)%nat -> row !! j = Some w -> v < w).



(** A seed [np.random.seed] accepts; no seed is acceptable too. *)
Definition seed_ok (seed : option Z) : Prop :=
  match seed with
  | Some s => (0 <= s < 2 ^ 32)%Z
  | None => True
  end.


(** The heterogeneity column of a run record. *)
Definition run_heterogeneity {A B C : Type} (r : A * B * Q * C) : Q := snd (fst r).

(** The driver's state after the runs [done]: nothing kept before the first
    run, afterwards the first run of minimal heterogeneity. *)
Definition best_so_far (G : Generator)
  (done : list (list (list Q) * option (list nat) * Q * gstate G))
  (st : driver_state G) : Prop :=
  match done with
  | [] => min_heterogeneity_achieved G st = None /\
          final_centroids G st = None /\ final_cluster_assignment G st = None
  | _ => exists b c a h g',
           done !! b = Some (c, a, h, g') /\
           first_min (map run_heterogeneity done) b /\
           min_heterogeneity_achieved G st = Some h /\
           final_centroids G st = Some c /\
           final_cluster_assignment G st = a
  end.

(** * The program over the numbers of its libraries

    The methods once more, this time over the numbers as numpy, scipy and
    scikit-learn compute them.  The libraries are an interface,
    [Library]: a type of numbers with the operations the source applies to
    them.  Nothing is assumed of the operations; a statement that needs a
    property of them names it as a hypothesis ([Ordered], [Summing],
    [Shaped]), and [binary64] further down is the instance of IEEE 754
    double precision, on which the program can be run. *)

Module Num.

Record Library : Type := {
  num : Type;
  zero : num;                            (* [0.0] *)
  inf : num;                             (* [float('inf')] *)
  add : num -> num -> num;               (* [heterogeneity += ...] *)
  square : num -> num;                   (* [distances ** 2], per entry *)
  np_sum : list (list num) -> num;       (* [np.sum] of a matrix *)
  ltb : num -> num -> bool;              (* [<] *)
  geb : num -> num -> bool;              (* [>=], the test of [np.argmin] *)
  is_nan : num -> bool;
  pairwise_distances :                   (* [metric='euclidean'] *)
    list (list num) -> list (list num) -> result (list (list num));
  np_mean : list (list num) -> result (list num)   (* [axis=0], then [.A1] *)
}.

Section Program.

Context (L : Library).

(** [np.argmin] of one row.  The scan keeps the best value seen and moves on
    an entry [x] for which [x >= best] is false; it stops on the first NaN. *)
Fixpoint argmin_from (best : num L) (bi i : nat) (row : list (num L)) : nat :=
  match row with
  | [] => bi
  | x :: rest =>
      if geb L x best then argmin_from best bi (S i) rest
      else if is_nan L x then i
      else argmin_from x i (S i) rest
  end.

Definition argmin_row (row : list (num L)) : result nat :=
  match row with
  | [] => Raise ValueError
  | x :: rest => Ok (if is_nan L x then 0%nat else argmin_from x 0 1 rest)
  end.

(** [np.argmin(distances, axis=1)] *)
Fixpoint argmin_axis1 (distances : list (list (num L))) : result (list nat) :=
  match distances with
  | [] => Ok []
  | row :: rest =>
      r ← argmin_row row;
      rs ← argmin_axis1 rest;
      Ok (r :: rs)
  end.

(** [data[mask]] for the boolean mask [cluster_assignment == i]. *)
Definition rows_labelled (data : list (list (num L)))
  (cluster_assignment : list nat) (i : nat) : list (list (num L)) :=
  map fst (List.filter (fun pc => Nat.eqb (snd pc) i)
                       (combine data cluster_assignment)).

Definition members (data : list (list (num L))) (cluster_assignment : list nat)
  (i : nat) : result (list (list (num L))) :=
  if Nat.eqb (length cluster_assignment) (length data)
  then Ok (rows_labelled data cluster_assignment i)
  else Raise IndexError.

(** [data[rand_indices, :]] and [centroids[i]] *)
Fixpoint take_rows (data : list (list (num L))) (idxs : list nat)
  : result (list (list (num L))) :=
  match idxs with
  | [] => Ok []
  | i :: rest =>
      match data !! i with
      | None => Raise IndexError
      | Some r => rs ← take_rows data rest; Ok (r :: rs)
      end
  end.

Definition row_at (data : list (list (num L))) (idx : nat) : result (list (num L)) :=
  match data !! idx with
  | Some r => Ok r
  | None => Raise IndexError
  end.

(** ** [get_initial_centroids] *)

Section WithGenerator.

Context (G : Generator).

(** [np.random.randint(0, n, k)].  A negative size is a [ValueError]; size 0
    gives the empty array whatever the range; otherwise an empty range is a
    [ValueError]. *)
Definition randint (g : gstate G) (n : nat) (k : Z)
  : result (list nat * gstate G) :=
  if (k <? 0)%Z then Raise ValueError
  else if (k =? 0)%Z then Ok ([], g)
  else if Nat.eqb n 0 then Raise ValueError
  else Ok (draws G g n (Z.to_nat k)).

Definition get_initial_centroids (data : list (list (num L))) (k : Z)
  (seed : option Z) (g : gstate G) : result (list (list (num L)) * gstate G) :=
  g1 ← seed_if_given G seed g;
  let n := length data in
  '(rand_indices, g2) ← randint g1 n k;
  centroids ← take_rows data rand_indices;
  Ok (centroids, g2).

End WithGenerator.

(** ** [assign_clusters] *)

Definition assign_clusters (data centroids : list (list (num L)))
  : result (list nat) :=
  distances ← pairwise_distances L data centroids;
  argmin_axis1 distances.

(** ** [revise_centroids] *)

Fixpoint revise_loop (data : list (list (num L))) (cluster_assignment : list nat)
  (clusters : list nat) : result (list (list (num L))) :=
  match clusters with
  | [] => Ok []
  | i :: rest =>
      member_data_points ← members data cluster_assignment i;
      centroid ← np_mean L member_data_points;
      new_centroids ← revise_loop data cluster_assignment rest;
      Ok (centroid :: new_centroids)
  end.

Definition revise_centroids (data : list (list (num L))) (k : Z)
  (cluster_assignment : list nat) : result (list (list (num L))) :=
  revise_loop data cluster_assignment (seq 0 (Z.to_nat k)).

(** ** [compute_heterogeneity] *)

Fixpoint heterogeneity_loop (select : nat -> result (list (list (num L))))
  (centroids : list (list (num L))) (clusters : list nat) (heterogeneity : num L)
  : result (num L) :=
  match clusters with
  | [] => Ok heterogeneity
  | i :: rest =>
      member_data_points ← select i;
      if (0 <? length member_data_points)%nat then
        c ← row_at centroids i;
        distances ← pairwise_distances L member_data_points [c];
        let squared_distances := map (map (square L)) distances in
        heterogeneity_loop select centroids rest
          (add L heterogeneity (np_sum L squared_distances))
      else
        heterogeneity_loop select centroids rest heterogeneity
  end.

Definition compute_heterogeneity (data : list (list (num L))) (k : Z)
  (centroids : list (list (num L))) (cluster_assignment : list nat)
  : result (num L) :=
  heterogeneity_loop (members data cluster_assignment) centroids
    (seq 0 (Z.to_nat k)) (zero L).

(** ** [run_kmeans] *)

Record loop_end := {
  end_centroids : list (list (num L));
  end_assignment : option (list nat);
  end_iterations : nat;
  end_converged : bool
}.

Fixpoint kmeans_loop (data : list (list (num L))) (k : Z) (fuel itr : nat)
  (centroids : list (list (num L)))
  (prev_cluster_assignment cluster_assignment : option (list nat))
  (record_heterogeneity : option (list (num L)))
  : result loop_end * option (list (num L)) :=
  match fuel with
  | O => (Ok {| end_centroids := centroids;
                end_assignment := cluster_assignment;
                end_iterations := itr;
                end_converged := false |}, record_heterogeneity)
  | S fuel' =>
      match assign_clusters data centroids with
      | Raise e => (Raise e, record_heterogeneity)
      | Ok cluster_assignment' =>
          match revise_centroids data k cluster_assignment' with
          | Raise e => (Raise e, record_heterogeneity)
          | Ok centroids' =>
              if match prev_cluster_assignment with
                 | Some prev => all_equal prev cluster_assignment'
                 | None => false
                 end
              then (Ok {| end_centroids := centroids';
                          end_assignment := Some cluster_assignment';
                          end_iterations := S itr;
                          end_converged := true |}, record_heterogeneity)
              else
                match record_heterogeneity with
                | None =>
                    kmeans_loop data k fuel' (S itr) centroids'
                      (Some cluster_assignment') (Some cluster_assignment') None
                | Some history =>
                    match compute_heterogeneity data k centroids' cluster_assignment' with
                    | Raise e => (Raise e, record_heterogeneity)
                    | Ok score =>
                        kmeans_loop data k fuel' (S itr) centroids'
                          (Some cluster_assignment') (Some cluster_assignment')
                          (Some (history ++ [score]))
                    end
                end
          end
      end
  end.

Definition run_loop (data : list (list (num L))) (k : Z)
  (initial_centroids : list (list (num L))) (maxiter : Z)
  (record_heterogeneity : option (list (num L)))
  : result loop_end * option (list (num L)) :=
  kmeans_loop data k (Z.to_nat maxiter) 0 initial_centroids None None
    record_heterogeneity.

Definition run_kmeans (data : list (list (num L))) (k : Z)
  (initial_centroids : list (list (num L))) (maxiter : Z)
  (record_heterogeneity : option (list (num L)))
  : result (list (list (num L)) * option (list nat)) * option (list (num L)) :=
  let '(r, history) := run_loop data k initial_centroids maxiter record_heterogeneity in
  (e ← r; Ok (end_centroids e, end_assignment e), history).

(** ** [kmeans_multiple_runs] *)

Section Driver.

(** [unlabelled_rows] reads the row selection by the scalar [None == i] of a
    run that made no iteration, as in the driver above. *)
Context (G : Generator)
        (unlabelled_rows : list (list (num L)) -> result (list (list (num L)))).

Record driver_state := {
  heterogeneity : gmap Z (num L);
  min_heterogeneity_achieved : num L;
  best_seed : option Z;
  final_centroids : option (list (list (num L)));
  final_cluster_assignment : option (list nat);
  rng : gstate G
}.

Definition driver_init (g : gstate G) : driver_state :=
  {| heterogeneity := ∅;
     min_heterogeneity_achieved := inf L;
     best_seed := None;
     final_centroids := None;
     final_cluster_assignment := None;
     rng := g |}.

Definition final_heterogeneity (data : list (list (num L))) (k : Z)
  (centroids : list (list (num L))) (cluster_assignment : option (list nat))
  : result (num L) :=
  match cluster_assignment with
  | Some a => compute_heterogeneity data k centroids a
  | None =>
      heterogeneity_loop (fun _ => unlabelled_rows data) centroids
        (seq 0 (Z.to_nat k)) (zero L)
  end.

Definition trial (data : list (list (num L))) (k maxiter : Z) (seed : Z)
  : result (list (list (num L)) * option (list nat) * num L * gstate G) :=
  g1 ← np_random_seed G seed;
  '(initial_centroids, g2) ← get_initial_centroids G data k (Some seed) g1;
  '(centroids, cluster_assignment) ←
    fst (run_kmeans data k initial_centroids maxiter None);
  h ← final_heterogeneity data k centroids cluster_assignment;
  Ok (centroids, cluster_assignment, h, g2).

(** The end of the loop body: [heterogeneity[seed] = ...] and the test
    [heterogeneity[seed] < min_heterogeneity_achieved]. *)
Definition record_trial (st : driver_state) (seed : Z)
  (centroids : list (list (num L))) (cluster_assignment : option (list nat))
  (h : num L) (g : gstate G) : driver_state :=
  let heterogeneity' := <[seed := h]> (heterogeneity st) in
  if ltb L h (min_heterogeneity_achieved st) then
    {| heterogeneity := heterogeneity';
       min_heterogeneity_achieved := h;
       best_seed := Some seed;
       final_centroids := Some centroids;
       final_cluster_assignment := cluster_assignment;
       rng := g |}
  else
    {| heterogeneity := heterogeneity';
       min_heterogeneity_achieved := min_heterogeneity_achieved st;
       best_seed := best_seed st;
       final_centroids := final_centroids st;
       final_cluster_assignment := final_cluster_assignment st;
       rng := g |}.

Fixpoint driver_loop (data : list (list (num L))) (k maxiter : Z)
  (seed_list : option (list Z)) (now : nat -> Z) (trials : list nat)
  (st : driver_state) : result driver_state :=
  match trials with
  | [] => Ok st
  | i :: rest =>
      seed ← trial_seed seed_list now i;
      '(centroids, cluster_assignment, h, g) ← trial data k maxiter seed;
      driver_loop data k maxiter seed_list now rest
        (record_trial st seed centroids cluster_assignment h g)
  end.

Definition run_driver (data : list (list (num L))) (k maxiter num_runs : Z)
  (seed_list : option (list Z)) (now : nat -> Z) (g : gstate G)
  : result driver_state :=
  driver_loop data k maxiter seed_list now (seq 0 (Z.to_nat num_runs))
    (driver_init g).

Definition kmeans_multiple_runs (data : list (list (num L))) (k maxiter num_runs : Z)
  (seed_list : option (list Z)) (now : nat -> Z) (g : gstate G)
  : result (option (list (list (num L))) * option (list nat)) :=
  st ← run_driver data k maxiter num_runs seed_list now g;
  Ok (final_centroids st, final_cluster_assignment st).

End Driver.

(** ** What the statements assume of a library, and their vocabulary *)

(** The comparisons order the numbers that are not NaN, and are false on
    NaN, as those of IEEE 754 do. *)
Record Ordered : Prop := {
  ltb_irrefl : forall x, ltb L x x = false;
  ltb_trans : forall x y z,
    ltb L x y = true -> ltb L y z = true -> ltb L x z = true;
  ltb_split : forall x y z,
    ltb L x y = true -> is_nan L z = false ->
    ltb L x z = true \/ ltb L z y = true;
  ltb_nan : forall x y, is_nan L x = true -> ltb L x y = false;
  geb_nan : forall x y, is_nan L x = true -> geb L x y = false;
  geb_ltb : forall x y,
    is_nan L x = false -> is_nan L y = false -> geb L x y = negb (ltb L x y)
}.

(** [x >= 0.0], or [x] is NaN. *)
Definition not_negative (x : num L) : Prop :=
  is_nan L x = true \/ geb L x (zero L) = true.

(** Squares and sums of numbers that are not negative are not negative.  In
    IEEE 754 arithmetic this holds in whatever order a sum is taken. *)
Record Summing : Prop := {
  zero_not_negative : not_negative (zero L);
  square_not_negative : forall x, not_negative (square L x);
  add_not_negative : forall x y,
    not_negative x -> not_negative y -> not_negative (add L x y);
  np_sum_not_negative : forall M,
    Forall (Forall not_negative) M -> not_negative (np_sum L M)
}.

(** [pairwise_distances(X, Y)] has a row for every row of [X] and, in it, an
    entry for every row of [Y]. *)
Record Shaped : Prop := {
  pairwise_distances_shape : forall X Y D,
    pairwise_distances L X Y = Ok D ->
    length D = length X /\ Forall (fun row => length row = length Y) D
}.

(** Position [r] of [row] holds a value no entry is below, and every earlier
    entry is above it. *)
Definition first_minimum (row : list (num L)) (r : nat) : Prop :=
  exists v, row !! r = Some v /\
            (forall j w, row !! j = Some w -> ltb L w v = false) /\
            (forall j w, (j < r)%nat -> row !! j = Some w -> ltb L v w = true).

(** Position [r] holds the first NaN of [row]. *)
Definition first_nan (row : list (num L)) (r : nat) : Prop :=
  exists v, row !! r = Some v /\ is_nan L v = true /\
            (forall j w, (j < r)%nat -> row !! j = Some w -> is_nan L w = false).

(** What [np.argmin] returns for a row. *)
Definition argmin_of (row : list (num L)) (r : nat) : Prop :=
  first_nan row r \/
  (Forall (fun w => is_nan L w = false) row /\ first_minimum row r).

(** [v] is the heterogeneity of an assignment made by [assign_clusters] and
    of the centroids revised from it. *)
Definition heterogeneity_of_iteration (data : list (list (num L))) (k : Z)
  (v : num L) : Prop :=
  exists centroids a centroids',
    assign_clusters data centroids = Ok a /\
    revise_centroids data k a = Ok centroids' /\
    compute_heterogeneity data k centroids' a = Ok v.

(** The heterogeneity column of a run record. *)
Definition heterogeneity_of_run {A B C : Type} (r : A * B * num L * C) : num L :=
  snd (fst r).

(** Position [b] of a list of heterogeneities holds the value the driver
    keeps: it is below [inf], no value of the list is below it, and every
    earlier value is above it or is itself not below [inf] (it is NaN or
    infinite). *)
Definition lowest_first (hs : list (num L)) (b : nat) : Prop :=
  exists v, hs !! b = Some v /\ ltb L v (inf L) = true /\
            (forall j w, hs !! j = Some w -> ltb L w v = false) /\
            (forall j w, (j < b)%nat -> hs !! j = Some w ->
                         ltb L v w = true \/ ltb L w (inf L) = false).

(** No value of the list is below [inf]. *)
Definition none_below_inf (hs : list (num L)) : Prop :=
  Forall (fun w => ltb L w (inf L) = false) hs.

(** The driver's state after the runs [done] of the seeds [seeds]: nothing
    kept as long as no heterogeneity was below [inf], afterwards the run at
    the position [lowest_first] describes. *)
Definition kept_so_far (G : Generator) (seeds : list Z)
  (done : list (list (list (num L)) * option (list nat) * num L * gstate G))
  (st : driver_state G) : Prop :=
  (none_below_inf (map heterogeneity_of_run done) /\
   min_heterogeneity_achieved G st = inf L /\ best_seed G st = None /\
   final_centroids G st = None /\ final_cluster_assignment G st = None) \/
  (exists b s c a h g',
     seeds !! b = Some s /\ done !! b = Some (c, a, h, g') /\
     lowest_first (map heterogeneity_of_run done) b /\
     min_heterogeneity_achieved G st = h /\ best_seed G st = Some s /\
     final_centroids G st = Some c /\ final_cluster_assignment G st = a).

End Program.

(** ** IEEE 754 double precision *)

Section Binary64.

Local Open Scope float_scope.

(** [np.maximum(t, 0)] *)
Definition maximum0 (t : float) : float :=
  if PrimFloat.is_nan t then t else if t <? 0 then 0 else t.

(** The inner product of two rows.  The terms are added from the left; a
    library may group three or more terms otherwise, which can change the
    last bit of a sum.  The same holds of [f64_sum] and [f64_mean] below.
    The runs made on [binary64] in this development are on points of one
    coordinate, and every sum in them has the same value however its terms
    are grouped. *)
Definition dot (x y : list float) : float :=
  fold_left (fun acc ab => acc + fst ab * snd ab) (combine x y) 0.

(** One entry of [euclidean_distances(X, Y)]: scikit-learn expands the
    square, [-2 x.y + x.x + y.y], cuts the result at 0 and takes the root. *)
Definition euclidean (x y : list float) : float :=
  PrimFloat.sqrt (maximum0 ((-2 * dot x y + dot x x) + dot y y)).

(** What scikit-learn checks of each argument: at least one row, at least
    one column, rows of [d] entries, every entry finite. *)
Definition check_array (d : nat) (M : list (list float)) : bool :=
  match M with
  | [] => false
  | _ => (0 <? d)%nat &&
         forallb (fun r => Nat.eqb (length r) d && forallb PrimFloat.is_finite r) M
  end.

(** [pairwise_distances(X, Y, metric='euclidean')]: a [ValueError] unless
    both arguments pass the checks with the same number of columns. *)
Definition f64_pairwise_distances (X Y : list (list float))
  : result (list (list float)) :=
  match X with
  | [] => Raise ValueError
  | r :: _ =>
      if check_array (length r) X && check_array (length r) Y
      then Ok (map (fun x => map (euclidean x) Y) X)
      else Raise ValueError
  end.

(** [np.sum]: the entries added to [0.0]. *)
Definition f64_sum (M : list (list float)) : float :=
  fold_left PrimFloat.add (concat M) 0.

(** The mean over the rows of a sparse matrix: every entry is scaled by
    [1.0 / rows.shape[0]] and the columns are summed; with no row the
    division raises. *)
Definition f64_mean (rows : list (list float)) : result (list float) :=
  match rows with
  | [] => Raise ZeroDivisionError
  | r :: _ =>
      let w := 1 / PrimFloat.of_uint63 (Uint63.of_Z (Z.of_nat (length rows))) in
      Ok (map (fun j => fold_left (fun acc row => acc + nth j row 0 * w) rows 0)
              (seq 0 (length r)))
  end.

(** The reading of the scalar index [False] that selects no row. *)
Definition selects_no_row (data : list (list float)) : result (list (list float)) :=
  Ok [].

Definition binary64 : Library :=
  {| num := float;
     zero := 0;
     inf := infinity;
     add := PrimFloat.add;
     square := fun x => x * x;
     np_sum := f64_sum;
     ltb := PrimFloat.ltb;
     geb := fun x y => y <=? x;
     is_nan := PrimFloat.is_nan;
     pairwise_distances := f64_pairwise_distances;
     np_mean := f64_mean |}.

End Binary64.

(** ** Reading the IEEE specification

    [sf_key] sends a float that is not NaN to a triple of integers that
    [lex3] compares as [SFcompare] compares the floats: first the class
    (negative infinity, negative, zero, positive, positive infinity), then
    exponent and mantissa. *)

Definition sf_key (a : spec_float) : option (Z * Z * Z) :=
  match a with
  | S754_nan => None
  | S754_infinity true => Some (-2, 0, 0)%Z
  | S754_infinity false => Some (2, 0, 0)%Z
  | S754_zero _ => Some (0, 0, 0)%Z
  | S754_finite true m e => Some (-1, - e, Zneg m)%Z
  | S754_finite false m e => Some (1, e, Zpos m)%Z
  end.

Definition lex3 (x y : Z * Z * Z) : comparison :=
  match (fst (fst x) ?= fst (fst y))%Z with
  | Eq => match (snd (fst x) ?= snd (fst y))%Z with
          | Eq => (snd x ?= snd y)%Z
          | c => c
          end
  | c => c
  end.

(** The sign of a float is not negative: NaN, a zero, or sign bit clear. *)
Definition sf_not_negative (a : spec_float) : Prop :=
  match a with
  | S754_nan | S754_zero _ => True
  | S754_infinity s | S754_finite s _ _ => s = false
  end.

End Num.

(** * Properties of the program over exact rationals *)

(** ** Sums and squared distances *)





(** ** The first minimum of a row *)

Lemma argmin_from_first_min (l pre : list Q) (best : Q) (bi : nat) :
  pre !! bi = Some best ->
  (forall j w, pre !! j = Some w -> best <= w) ->
  (forall j w, (j < bi)%nat -> pre !! j = Some w -> best < w) ->
  first_min (pre ++ l) (argmin_from best bi (length pre) l).
Proof.
  revert pre best bi. induction l as [|x l IH]; intros pre best bi Hbi Hall Hbefore.
  - simpl. rewrite app_nil_r. exists best. auto.
  - simpl. pose proof (lookup_lt_Some _ _ _ Hbi) as Hlt.
    replace (pre ++ x :: l) with ((pre ++ [x]) ++ l) by (by rewrite <- app_assoc).
    replace (S (length pre)) with (length (pre ++ [x]))
      by (rewrite length_app; simpl; lia).
    destruct (Qcompare x best) eqn:Hc.
    + apply Qeq_alt in Hc. apply IH.
      * by rewrite lookup_app_l.
      * intros j w Hj. apply lookup_app_Some in Hj as [Hj | [_ Hj]]; [eauto|].
        apply list_lookup_singleton_Some in Hj as [_ <-]. lra.
      * intros j w Hjb Hj. rewrite lookup_app_l in Hj by lia. eauto.
    + apply Qlt_alt in Hc. apply IH.
      * rewrite lookup_app_r by lia. by rewrite Nat.sub_diag.
      * intros j w Hj. apply lookup_app_Some in Hj as [Hj | [_ Hj]].
        -- specialize (Hall _ _ Hj). lra.
        -- apply list_lookup_singleton_Some in Hj as [_ <-]. lra.
      * intros j w Hjb Hj. rewrite lookup_app_l in Hj by lia.
        specialize (Hall _ _ Hj). lra.
    + apply Qgt_alt in Hc. apply IH.
      * by rewrite lookup_app_l.
      * intros j w Hj. apply lookup_app_Some in Hj as [Hj | [_ Hj]]; [eauto|].
        apply list_lookup_singleton_Some in Hj as [_ <-]. lra.
      * intros j w Hjb Hj. rewrite lookup_app_l in Hj by lia. eauto.
Qed.

Lemma argmin_row_first_min (row : list Q) :
  row <> [] -> first_min row (argmin_row row).
Proof.
  destruct row as [|x l]; [done|]. intros _. simpl.
  apply (argmin_from_first_min l [x] x 0%nat).
  - done.
  - intros [|j] w Hj; simpl in Hj; [injection Hj as <-; lra | done].
  - intros j w Hj. lia.
Qed.

(** ** [assign_clusters] *)

Lemma assign_clusters_eq (data centroids : matrix) :
  centroids <> [] ->
  assign_clusters data centroids =
  Ok (map (fun p => argmin_row (map (sq_euclidean p) centroids)) data).
Proof.
  intros Hne. unfold assign_clusters, pairwise_sq_distances.
  destruct centroids; [done|]. by rewrite map_map.
Qed.

Lemma assign_clusters_length (data centroids : matrix) (a : assignment) :
  assign_clusters data centroids = Ok a -> length a = length data.
Proof.
  unfold assign_clusters, pairwise_sq_distances.
  destruct centroids; [done|]. intros [= <-]. by rewrite !length_map.
Qed.

(** What [argmin_row] picks for one point. *)
Lemma nearest_first (p : point) (centroids : matrix) :
  centroids <> [] ->
  exists c, centroids !! argmin_row (map (sq_euclidean p) centroids) = Some c /\
    (forall i' c', centroids !! i' = Some c' -> sq_euclidean p c <= sq_euclidean p c') /\
    (forall i' c', (i' < argmin_row (map (sq_euclidean p) centroids))%nat ->
                   centroids !! i' = Some c' -> sq_euclidean p c < sq_euclidean p c').
Proof.
  intros Hne.
  destruct (argmin_row_first_min (map (sq_euclidean p) centroids)) as (v & Hv & Hmin & Hfirst).
  { by destruct centroids. }
  rewrite list_lookup_fmap in Hv. apply fmap_Some in Hv as (c & Hc & ->).
  exists c. split; [done|]. split.
  - intros i' c' Hi'. apply (Hmin i'). by rewrite list_lookup_fmap, Hi'.
  - intros i' c' Hlt Hi'. apply (Hfirst i'); [done|]. by rewrite list_lookup_fmap, Hi'.
Qed.

(** ** [compute_heterogeneity] *)

Lemma members_ok (data : matrix) (a : assignment) (i : nat) :
  length a = length data -> members data a i = Ok (rows_labelled data a i).
Proof. intros H. unfold members. by rewrite H, Nat.eqb_refl. Qed.

Lemma members_inv (data : matrix) (a : assignment) (i : nat) (m : matrix) :
  members data a i = Ok m -> length a = length data /\ m = rows_labelled data a i.
Proof.
  unfold members. destruct (Nat.eqb _ _) eqn:E; [|done].
  apply Nat.eqb_eq in E. by intros [= <-].
Qed.

Lemma rows_labelled_elem (data : matrix) (a : assignment) (i : nat) (p : list Q) :
  p ∈ rows_labelled data a i -> p ∈ data /\ i ∈ a.
Proof.
  unfold rows_labelled. intros H.
  apply list_elem_of_In, in_map_iff in H as ([q c] & <- & H).
  apply filter_In in H as [H Hc]. simpl in *. apply Nat.eqb_eq in Hc as ->.
  split; apply list_elem_of_In; [eapply in_combine_l | eapply in_combine_r]; eauto.
Qed.

(** ** [revise_centroids] *)

Lemma revise_loop_spec (data : matrix) (a : assignment) (clusters : list nat)
  (cs : matrix) :
  revise_loop data a clusters = Ok cs ->
  Forall2 (fun i c => length a = length data /\
                      mean_axis0 (rows_labelled data a i) = Ok c) clusters cs.
Proof.
  revert cs. induction clusters as [|i rest IH]; intros cs; cbn [revise_loop].
  - intros [= <-]. constructor.
  - destruct (members data a i) as [m|] eqn:Em; [|done]. cbn [mbind result_bind].
    destruct (mean_axis0 m) as [c|] eqn:Ec; [|done]. cbn [mbind result_bind].
    destruct (revise_loop data a rest) as [cs'|]; [|done]. cbn [mbind result_bind].
    intros [= <-]. apply members_inv in Em as [Hlen ->]. constructor; auto.
Qed.

Lemma revise_centroids_spec (data : matrix) (k : Z) (a : assignment) (cs : matrix) :
  revise_centroids data k a = Ok cs ->
  Forall2 (fun i c => length a = length data /\
                      mean_axis0 (rows_labelled data a i) = Ok c)
          (seq 0 (Z.to_nat k)) cs.
Proof. apply revise_loop_spec. Qed.

Lemma revise_centroids_length (data : matrix) (k : Z) (a : assignment) (cs : matrix) :
  revise_centroids data k a = Ok cs -> length cs = Z.to_nat k.
Proof.
  intros H. apply revise_centroids_spec, Forall2_length in H.
  by rewrite length_seq in H.
Qed.

(** ** The loop of [run_kmeans] *)

(** One pass through the loop body, by cases. *)
Ltac loop_step H a Ea c' Er Eb :=
  cbn [kmeans_loop] in H;
  match type of H with
  | context [assign_clusters ?d ?c] =>
      destruct (assign_clusters d c) as [a|] eqn:Ea
  end;
  [ match type of H with
    | context [revise_centroids ?d ?k a] =>
        destruct (revise_centroids d k a) as [c'|] eqn:Er
    end;
    [ match type of H with
      | context [if ?b then _ else _] => destruct b eqn:Eb
      end
    | ]
  | ].

(** A loop that ends normally entered at most [fuel] iterations; if it
    entered one, the values it returns are the labels of its last iteration
    and the centroids revised from them. *)
Lemma kmeans_loop_end (data : matrix) (k : Z) (fuel itr : nat) (c : matrix)
  (prev cur : option (list nat)) (rec rec' : option (list Q)) (e : loop_end) :
  kmeans_loop data k fuel itr c prev cur rec = (Ok e, rec') ->
  (itr <= end_iterations e <= itr + fuel)%nat /\
  (fuel = 0%nat -> end_centroids e = c /\ end_assignment e = cur) /\
  ((0 < fuel)%nat ->
   (itr < end_iterations e)%nat /\
   exists a, end_assignment e = Some a /\ length a = length data /\
             revise_centroids data k a = Ok (end_centroids e)).
Proof.
  revert itr c prev cur rec. induction fuel as [|fuel IH]; intros itr c prev cur rec H.
  - cbn [kmeans_loop] in H. injection H as <- <-. simpl.
    split; [lia|]. split; [done | lia].
  - assert (forall c' a rec0,
      assign_clusters data c = Ok a -> revise_centroids data k a = Ok c' ->
      kmeans_loop data k fuel (S itr) c' (Some a) (Some a) rec0 = (Ok e, rec') ->
      (itr <= end_iterations e <= itr + S fuel)%nat /\
      (S fuel = 0%nat -> end_centroids e = c /\ end_assignment e = cur) /\
      ((0 < S fuel)%nat ->
       (itr < end_iterations e)%nat /\
       exists a, end_assignment e = Some a /\ length a = length data /\
                 revise_centroids data k a = Ok (end_centroids e))) as Hnext.
    { intros c' a rec0 Ea Er H'. apply IH in H' as (Hit & H0 & Hpos).
      split; [lia|]. split; [lia|]. intros _.
      destruct fuel as [|fuel'].
      - destruct (H0 eq_refl) as [-> ->]. split; [lia|].
        exists a. split; [done|]. split; [by eapply assign_clusters_length | done].
      - destruct Hpos as [Hlt Ha]; [lia|]. split; [lia | done]. }
    loop_step H a Ea c' Er Eb; try discriminate.
    + injection H as <- <-. simpl. split; [lia|]. split; [lia|]. intros _.
      split; [lia|]. exists a.
      split; [done|]. split; [by eapply assign_clusters_length | done].
    + destruct rec as [history|].
      * destruct (compute_heterogeneity data k c' a) as [score|]; [|discriminate].
        eapply Hnext; eauto.
      * eapply Hnext; eauto.
Qed.

(** With recording, the caller's list grows at its end, by one value for
    every iteration entered except an iteration that left through [break];
    and the first iteration of a call never breaks. *)
Lemma kmeans_loop_recorded (data : matrix) (k : Z) (fuel itr : nat) (c : matrix)
  (prev cur : option (list nat)) (history : list Q) (rec' : option (list Q))
  (e : loop_end) :
  kmeans_loop data k fuel itr c prev cur (Some history) = (Ok e, rec') ->
  exists vals,
    rec' = Some (history ++ vals) /\
    (length vals + (if end_converged e then 1 else 0) = end_iterations e - itr)%nat /\
    (end_converged e = true -> prev = None -> (itr + 2 <= end_iterations e)%nat).
Proof.
  revert itr c prev cur history. induction fuel as [|fuel IH];
    intros itr c prev cur history H.
  - cbn [kmeans_loop] in H. injection H as <- <-. exists []. simpl.
    rewrite app_nil_r. split; [done|]. split; [lia | done].
  - loop_step H a Ea c' Er Eb; try discriminate.
    + injection H as <- <-. exists []. simpl. rewrite app_nil_r.
      split; [done|]. split; [lia|]. intros _ ->. discriminate.
    + destruct (compute_heterogeneity data k c' a) as [score|]; [|discriminate].
      pose proof (kmeans_loop_end _ _ _ _ _ _ _ _ _ _ H) as (Hit & _ & _).
      apply IH in H as (vals & -> & Hlen & Hconv).
      exists (score :: vals). rewrite <- app_assoc. split; [done|].
      split; [simpl; lia|]. intros Hc _.
      destruct (end_converged e); [|discriminate]. simpl in Hlen. lia.
Qed.

Lemma assign_clusters_labels (data centroids : matrix) (a : list nat) :
  assign_clusters data centroids = Ok a ->
  Forall (fun i => (i < length centroids)%nat) a.
Proof.
  intros H. assert (centroids <> []) as Hne by (by destruct centroids).
  rewrite (assign_clusters_eq _ _ Hne) in H. injection H as <-.
  apply Forall_forall. intros i Hi.
  apply list_elem_of_In, in_map_iff in Hi as (p & <- & _).
  destruct (nearest_first p centroids Hne) as (c & Hc & _).
  by eapply lookup_lt_Some.
Qed.

Lemma kmeans_loop_labels (data : matrix) (k : Z) (fuel itr : nat) (c : matrix)
  (prev cur : option (list nat)) (rec rec' : option (list Q)) (e : loop_end)
  (a : list nat) :
  length c = Z.to_nat k -> (0 < fuel)%nat ->
  kmeans_loop data k fuel itr c prev cur rec = (Ok e, rec') ->
  end_assignment e = Some a ->
  Forall (fun i => (i < Z.to_nat k)%nat) a.
Proof.
  revert itr c prev cur rec. induction fuel as [|fuel IH];
    intros itr c prev cur rec Hc Hfuel H Hend; [lia|].
  assert (forall c' a0 rec0,
    assign_clusters data c = Ok a0 -> revise_centroids data k a0 = Ok c' ->
    kmeans_loop data k fuel (S itr) c' (Some a0) (Some a0) rec0 = (Ok e, rec') ->
    Forall (fun i => (i < Z.to_nat k)%nat) a) as Hnext.
  { intros c' a0 rec0 Ea Er H'. destruct fuel as [|fuel'].
    - cbn [kmeans_loop] in H'. injection H' as <- <-. simpl in Hend.
      injection Hend as <-. rewrite <- Hc. by apply (assign_clusters_labels data).
    - eapply (IH _ c'); eauto; [|lia]. by eapply revise_centroids_length. }
  loop_step H a0 Ea c' Er Eb; try discriminate.
  - injection H as <- <-. simpl in Hend. injection Hend as <-.
    rewrite <- Hc. by apply (assign_clusters_labels data).
  - destruct rec as [history|].
    + destruct (compute_heterogeneity data k c' a0) as [score|]; [|discriminate].
      eapply Hnext; eauto.
    + eapply Hnext; eauto.
Qed.

Lemma run_kmeans_inv (data : matrix) (k : Z) (initial_centroids : matrix)
  (maxiter : Z) (rec rec' : option (list Q)) (c : matrix) (oa : option (list nat)) :
  run_kmeans data k initial_centroids maxiter rec = (Ok (c, oa), rec') ->
  exists e, run_loop data k initial_centroids maxiter rec = (Ok e, rec') /\
            c = end_centroids e /\ oa = end_assignment e.
Proof.
  unfold run_kmeans.
  destruct (run_loop data k initial_centroids maxiter rec) as [[e|err] h]; [|done].
  cbn [mbind result_bind]. intros [= <- <- <-]. by exists e.
Qed.

(** C3, as the code has it.  With [maxiter <= 0] the loop body never runs:
    [run_kmeans] returns the initial centroids and no assignment, and
    leaves the caller's list as it was.  With [maxiter >= 1] and as many
    initial centroids as [k], a call of [run_kmeans] that returns has
    entered at least one and at most [maxiter] iterations, and the
    assignment it returns gives every point index exactly one label, a
    cluster index below [k]. *)
Theorem run_kmeans_within_maxiter_labels_every_point
  (data : matrix) (k : Z) (initial_centroids : matrix) (maxiter : Z)
  (rec : option (list Q)) :
  ((maxiter <= 0)%Z ->
   run_kmeans data k initial_centroids maxiter rec
     = (Ok (initial_centroids, None), rec)) /\
  ((1 <= maxiter)%Z ->
   length initial_centroids = Z.to_nat k ->
   forall (rec' : option (list Q)) (c : matrix) (oa : option (list nat)),
     run_kmeans data k initial_centroids maxiter rec = (Ok (c, oa), rec') ->
     exists e a,
       run_loop data k initial_centroids maxiter rec = (Ok e, rec') /\
       (1 <= end_iterations e <= Z.to_nat maxiter)%nat /\
       oa = Some a /\ length a = length data /\
       forall j, (j < length data)%nat ->
                 exists i, a !! j = Some i /\ (i < Z.to_nat k)%nat).
Proof.
  split.
  { intros Hmax. unfold run_kmeans, run_loop.
    by replace (Z.to_nat maxiter) with 0%nat by lia. }
  intros Hmax Hk rec' c oa H. apply run_kmeans_inv in H as (e & He & -> & ->).
  pose proof He as He'. unfold run_loop in He'.
  pose proof (kmeans_loop_end _ _ _ _ _ _ _ _ _ _ He') as (Hit & _ & Hpos).
  destruct Hpos as (Hlt & a & Ha & Hlen & _); [lia|].
  exists e, a. split; [done|]. split; [lia|]. split; [done|]. split; [done|].
  intros j Hj.
  assert (Forall (fun i => (i < Z.to_nat k)%nat) a) as Hlab
    by (apply (kmeans_loop_labels data k (Z.to_nat maxiter) 0 initial_centroids
                 None None rec rec' e a Hk); [lia | exact He' | exact Ha]).
  destruct (lookup_lt_is_Some_2 a j) as [i Hi]; [lia|].
  exists i. split; [done|]. rewrite Forall_forall in Hlab.
  apply Hlab. by eapply list_elem_of_lookup_2.
Qed.

Lemma run_kmeans_within_maxiter_labels_every_point_witness :
  run_kmeans square4 2 [[0; 0]; [10; 0]] (-3) (Some [7])
    = (Ok ([[0; 0]; [10; 0]], None), Some [7]) /\
  exists e a,
    run_loop square4 2 [[0; 0]; [10; 0]] 5 None = (Ok e, None) /\
    (1 <= end_iterations e <= Z.to_nat 5)%nat /\
    Some [0; 0; 1; 1]%nat = Some a /\ length a = length square4 /\
    forall j, (j < length square4)%nat ->
              exists i, a !! j = Some i /\ (i < Z.to_nat 2)%nat.
Proof.
  split.
  - apply (proj1 (run_kmeans_within_maxiter_labels_every_point
                    square4 2 [[0; 0]; [10; 0]] (-3) (Some [7]))).
    lia.
  - apply (proj2 (run_kmeans_within_maxiter_labels_every_point
                    square4 2 [[0; 0]; [10; 0]] 5 None)) with
      (c := [[0 # 2; 1 # 2]; [20 # 2; 1 # 2]]).
    + lia.
    + reflexivity.
    + reflexivity.
Defined.

(** C3 as stated fails twice over.  With [maxiter = 0] the loop body never
    runs and the assignment returned is [None]; and a call can end in an
    exception instead of returning, here with no centroid to assign to. *)
Lemma run_kmeans_no_assignment_counterexample :
  run_kmeans square4 2 [[0; 0]; [10; 0]] 0 None
    = (Ok ([[0; 0]; [10; 0]], None), None) /\
  run_kmeans square4 0 [] 3 None = (Raise ValueError, None).
Proof. split; reflexivity. Qed.



(** C4, as the code has it.  With recording on and [maxiter >= 1], a call
    that returns has appended to the caller's list one value for every
    iteration entered, the first included, except for an iteration left
    through [break]; a [break] never happens in the first iteration.  The
    first value appended is the heterogeneity of the first iteration's
    assignment and revised centroids. *)
Theorem run_kmeans_records_each_unconverged_iteration
  (data : matrix) (k : Z) (initial_centroids : matrix) (maxiter : Z)
  (history : list Q) (rec' : option (list Q)) (e : loop_end) :
  (1 <= maxiter)%Z ->
  run_loop data k initial_centroids maxiter (Some history) = (Ok e, rec') ->
  exists a0 c1 score rest,
    assign_clusters data initial_centroids = Ok a0 /\
    revise_centroids data k a0 = Ok c1 /\
    compute_heterogeneity data k c1 a0 = Ok score /\
    rec' = Some (history ++ score :: rest) /\
    snd (run_kmeans data k initial_centroids maxiter (Some history)) = rec' /\
    (length (score :: rest) + (if end_converged e then 1 else 0)
     = end_iterations e)%nat /\
    (end_converged e = true -> (2 <= end_iterations e)%nat).
Proof.
  intros Hmax H.
  assert (snd (run_kmeans data k initial_centroids maxiter (Some history)) = rec') as Hsnd
    by (unfold run_kmeans; by rewrite H).
  unfold run_loop in H.
  destruct (Z.to_nat maxiter) as [|fuel] eqn:Ef; [lia|].
  cbn [kmeans_loop] in H.
  destruct (assign_clusters data initial_centroids) as [a0|] eqn:Ea; [|discriminate].
  destruct (revise_centroids data k a0) as [c1|] eqn:Er; [|discriminate].
  destruct (compute_heterogeneity data k c1 a0) as [score|] eqn:Eh; [|discriminate].
  pose proof (kmeans_loop_end _ _ _ _ _ _ _ _ _ _ H) as (Hit & _ & _).
  apply kmeans_loop_recorded in H as (vals & -> & Hlen & _).
  exists a0, c1, score, vals. rewrite <- app_assoc in *. simpl in *.
  repeat (split; [done|]). destruct (end_converged e); split; try lia; done.
Qed.

Lemma run_kmeans_records_each_unconverged_iteration_witness :
  exists a0 c1 score rest,
    assign_clusters [[0]; [1]; [2]; [3]; [10]] [[0]; [1]] = Ok a0 /\
    revise_centroids [[0]; [1]; [2]; [3]; [10]] 2 a0 = Ok c1 /\
    compute_heterogeneity [[0]; [1]; [2]; [3]; [10]] 2 c1 a0 = Ok score /\
    snd (kmeans_loop [[0]; [1]; [2]; [3]; [10]] 2 9 0 [[0]; [1]] None None (Some [7]))
      = Some ([7] ++ score :: rest) /\
    snd (run_kmeans [[0]; [1]; [2]; [3]; [10]] 2 [[0]; [1]] 9 (Some [7]))
      = snd (kmeans_loop [[0]; [1]; [2]; [3]; [10]] 2 9 0 [[0]; [1]] None None (Some [7])) /\
    (length (score :: rest) + 1 = 4)%nat /\
    (true = true -> (2 <= 4)%nat).
Proof.
  apply (run_kmeans_records_each_unconverged_iteration
           [[0]; [1]; [2]; [3]; [10]] 2 [[0]; [1]] 9 [7]
           (snd (kmeans_loop [[0]; [1]; [2]; [3]; [10]] 2 9 0 [[0]; [1]] None None (Some [7])))
           {| end_centroids := [[6 # 4]; [10]];
              end_assignment := Some [0; 0; 0; 0; 1]%nat;
              end_iterations := 4;
              end_converged := true |}).
  - lia.
  - reflexivity.
Defined.

(** C4 as stated fails: a single iteration is the first one, and its
    heterogeneity is appended to the caller's empty list. *)
Lemma run_kmeans_first_iteration_recorded_counterexample :
  exists score,
    run_loop square4 2 [[0; 0]; [10; 0]] 1 (Some [])
    = (Ok {| end_centroids := [[0 # 2; 1 # 2]; [20 # 2; 1 # 2]];
             end_assignment := Some [0; 0; 1; 1]%nat;
             end_iterations := 1;
             end_converged := false |}, Some [score]) /\
    snd (run_kmeans square4 2 [[0; 0]; [10; 0]] 1 (Some [])) = Some [score] /\
    score == 1.
Proof. eexists. split; [reflexivity|]. split; reflexivity. Qed.

(** ** [get_initial_centroids] *)

Lemma seed_if_given_ok (G : Generator) (seed : option Z) (g : gstate G) :
  seed_ok seed -> exists g1, seed_if_given G seed g = Ok g1.
Proof.
  destruct seed as [s|]; simpl; intros Hs; [|by exists g].
  unfold np_random_seed.
  replace ((0 <=? s)%Z && (s <? 2 ^ 32)%Z) with true; [by eexists|].
  symmetry. apply andb_true_iff. split; [apply Z.leb_le | apply Z.ltb_lt]; lia.
Qed.

Lemma draws_spec (G : Generator) (n k : nat) (g : gstate G) :
  (0 < n)%nat ->
  length (fst (draws G g n k)) = k /\
  Forall (fun i => (i < n)%nat) (fst (draws G g n k)).
Proof.
  intros Hn. revert g. induction k as [|k IH]; intros g; cbn [draws].
  - split; [done | constructor].
  - pose proof (draw_int_lt G g n Hn) as Hlt.
    destruct (draw_int G g n) as [i g1]. specialize (IH g1).
    destruct (draws G g1 n k) as [rest g2]. simpl in *.
    destruct IH as [IH1 IH2]. split; [lia | by constructor].
Qed.

Lemma take_rows_spec (data : matrix) (idxs : list nat) :
  Forall (fun i => (i < length data)%nat) idxs ->
  exists rows, take_rows data idxs = Ok rows /\
               length rows = length idxs /\ Forall (fun r => r ∈ data) rows.
Proof.
  induction 1 as [|i idxs Hi _ (rows & Hrows & Hlen & Hin)]; cbn [take_rows].
  - exists []. by repeat split.
  - destruct (lookup_lt_is_Some_2 data i Hi) as [r Hr]. rewrite Hr, Hrows.
    cbn [mbind result_bind]. exists (r :: rows). split; [done|].
    split; [simpl; lia|]. constructor; [|done]. by eapply list_elem_of_lookup_2.
Qed.

(** C5, as the code has it.  [get_initial_centroids] checks nothing about
    [k]: on a non-empty dataset and with an acceptable seed it fails, on the
    sampler's own [ValueError], only for [k < 0]; for every [k >= 0], [k = 0]
    and [k] above the number of points included, it returns [k] rows of the
    dataset. *)
Theorem get_initial_centroids_fails_only_below_zero
  (G : Generator) (data : matrix) (k : Z) (seed : option Z) (g : gstate G) :
  data <> [] -> seed_ok seed ->
  ((k < 0)%Z -> get_initial_centroids G data k seed g = Raise ValueError) /\
  ((0 <= k)%Z ->
   exists centroids g',
     get_initial_centroids G data k seed g = Ok (centroids, g') /\
     length centroids = Z.to_nat k /\
     Forall (fun c => c ∈ data) centroids).
Proof.
  intros Hne Hseed. unfold get_initial_centroids.
  destruct (seed_if_given_ok G seed g Hseed) as [g1 ->]. cbn [mbind result_bind].
  unfold randint.
  assert (0 < length data)%nat as Hn by (destruct data; [done | simpl; lia]).
  split; intros Hk.
  - by replace (k <? 0)%Z with true by (symmetry; apply Z.ltb_lt; lia).
  - replace (k <? 0)%Z with false by (symmetry; apply Z.ltb_ge; lia).
    replace (Nat.eqb (length data) 0) with false by (symmetry; apply Nat.eqb_neq; lia).
    cbn [mbind result_bind].
    destruct (draws_spec G (length data) (Z.to_nat k) g1 Hn) as [Hlen Hlt].
    destruct (draws G g1 (length data) (Z.to_nat k)) as [idxs g2]. simpl in *.
    destruct (take_rows_spec data idxs Hlt) as (rows & -> & Hrl & Hin).
    cbn [mbind result_bind]. exists rows, g2. split; [done|]. split; [lia | done].
Qed.

Lemma get_initial_centroids_fails_only_below_zero_witness :
  ((5 < 0)%Z ->
   get_initial_centroids digits [[0]; [1]] 5 (Some 11%Z) 0%Z = Raise ValueError) /\
  ((0 <= 5)%Z ->
   exists centroids g',
     get_initial_centroids digits [[0]; [1]] 5 (Some 11%Z) 0%Z = Ok (centroids, g') /\
     length centroids = Z.to_nat 5 /\
     Forall (fun c => c ∈ [[0]; [1]]) centroids).
Proof.
  apply (get_initial_centroids_fails_only_below_zero
           digits [[0]; [1]] 5 (Some 11%Z) 0%Z).
  - discriminate.
  - simpl. lia.
Defined.

(** C5 as stated fails: with more centroids asked for than there are
    points, and with none asked for, a Centroid Set is returned. *)
Lemma get_initial_centroids_out_of_range_counterexample :
  get_initial_centroids digits [[0]; [1]] 5 (Some 11%Z) 0%Z
    = Ok ([[1]; [1]; [0]; [1]; [0]], 0%Z) /\
  get_initial_centroids digits [[0]; [1]] 0 (Some 11%Z) 0%Z = Ok ([], 11%Z).
Proof. split; reflexivity. Qed.

(** ** [kmeans_multiple_runs] *)

(** C6, as the code has it.  With [num_runs <= 0] the loop over trials is
    empty: nothing is drawn, nothing is run, and the method returns the pair
    [(None, None)] it started with. *)
Theorem kmeans_multiple_runs_without_runs
  (G : Generator) (ur : list (list Q) -> result (list (list Q)))
  (data : matrix) (k maxiter num_runs : Z)
  (seed_list : option (list Z)) (now : nat -> Z) (g : gstate G) :
  (num_runs <= 0)%Z ->
  run_driver G ur data k maxiter num_runs seed_list now g = Ok (driver_init G g) /\
  kmeans_multiple_runs G ur data k maxiter num_runs seed_list now g = Ok (None, None).
Proof.
  intros Hn. unfold kmeans_multiple_runs, run_driver.
  replace (Z.to_nat num_runs) with 0%nat by lia. by cbn.
Qed.

Lemma kmeans_multiple_runs_without_runs_witness :
  run_driver digits no_row square4 2 5 (-1) (Some [1; 2; 3]%Z) ticking 0%Z
    = Ok (driver_init digits 0%Z) /\
  kmeans_multiple_runs digits no_row square4 2 5 (-1) (Some [1; 2; 3]%Z) ticking 0%Z
    = Ok (None, None).
Proof.
  apply (kmeans_multiple_runs_without_runs digits no_row square4 2 5 (-1)
           (Some [1; 2; 3]%Z) ticking 0%Z).
  lia.
Defined.

(** C6 as stated fails: zero runs, and a negative number of runs, return
    normally. *)
Lemma kmeans_multiple_runs_zero_runs_counterexample :
  kmeans_multiple_runs digits no_row square4 2 5 0 (Some [1; 2; 3]%Z) ticking 0%Z
    = Ok (None, None) /\
  kmeans_multiple_runs digits no_row square4 2 5 (-1) None ticking 0%Z
    = Ok (None, None).
Proof. split; reflexivity. Qed.

Lemma below_true (h m : Q) : below h (Some m) = true -> h < m.
Proof.
  simpl. destruct (Qcompare h m) eqn:E; intros H; [discriminate | | discriminate].
  by apply Qlt_alt.
Qed.

Lemma below_false (h m : Q) : below h (Some m) = false -> m <= h.
Proof.
  simpl. destruct (Qcompare h m) eqn:E; intros H; [| discriminate |].
  - apply Qeq_alt in E. lra.
  - apply Qgt_alt in E. lra.
Qed.

(** C1.  The driver does not start its runs from [smart_initialize]: the
    body of a trial calls [get_initial_centroids], under the comment that
    announces k-means++.  On the four points of the worked example, two
    clusters and the single seed 14, read by the generator [digits], the
    uniform draw is the two right-hand points and the run ends on the
    split of heterogeneity 100 that the driver returns; the weighted draw
    for the same seed is one point on each side, from which the run ends on
    the split of heterogeneity 1. *)
Theorem kmeans_multiple_runs_starts_from_uniform_draw :
  get_initial_centroids digits square4 2 (Some 14%Z) 14%Z
    = Ok ([[10; 0]; [10; 1]], 0%Z) /\
  smart_initialize digits square4 2 (Some 14%Z) 14%Z
    = Ok ([[10; 0]; [0; 0]], 1%Z) /\
  kmeans_multiple_runs digits no_row square4 2 5 1 (Some [14%Z]) ticking 0%Z
    = Ok (Some [[10 # 2; 0 # 2]; [10 # 2; 2 # 2]], Some [0; 1; 0; 1]%nat) /\
  fst (run_kmeans square4 2 [[10; 0]; [10; 1]] 5 None)
    = Ok ([[10 # 2; 0 # 2]; [10 # 2; 2 # 2]], Some [0; 1; 0; 1]%nat) /\
  fst (run_kmeans square4 2 [[10; 0]; [0; 0]] 5 None)
    = Ok ([[20 # 2; 1 # 2]; [0 # 2; 1 # 2]], Some [1; 1; 0; 0]%nat) /\
  (exists h, compute_heterogeneity square4 2 [[10 # 2; 0 # 2]; [10 # 2; 2 # 2]]
               [0; 1; 0; 1]%nat = Ok h /\ h == 100) /\
  (exists h, compute_heterogeneity square4 2 [[20 # 2; 1 # 2]; [0 # 2; 1 # 2]]
               [1; 1; 0; 0]%nat = Ok h /\ h == 1).
Proof.
  repeat split; try reflexivity; eexists; split; reflexivity.
Qed.

(** With [maxiter = 0] a trial returns its initial centroids and no
    assignment; under either reading of the scalar index the driver returns
    them. *)
Example kmeans_multiple_runs_zero_iterations :
  kmeans_multiple_runs digits no_row square4 2 0 1 (Some [1%Z]) ticking 0%Z
    = Ok (Some [[0; 1]; [0; 0]], None) /\
  kmeans_multiple_runs digits row_zero square4 2 0 1 (Some [1%Z]) ticking 0%Z
    = Ok (Some [[0; 1]; [0; 0]], None).
Proof. split; reflexivity. Qed.

(** * Further properties of the methods *)

(** ** More on [compute_heterogeneity] *)

Lemma rows_labelled_nonempty (data : matrix) (a : assignment) (i : nat) :
  length a = length data -> i ∈ a -> rows_labelled data a i <> [].
Proof.
  unfold rows_labelled. revert a.
  induction data as [|p data IH]; intros [|c a] Hlen Hin; try discriminate.
  - by apply elem_of_nil in Hin.
  - cbn [combine List.filter snd]. destruct (Nat.eqb_spec c i) as [->|Hne]; [done|].
    apply IH; [simpl in Hlen; lia|].
    apply elem_of_cons in Hin as [->|Hin]; [done | exact Hin].
Qed.


(** ** More on [revise_centroids] *)

Lemma revise_loop_ok (data : matrix) (a : assignment) (clusters : list nat) :
  length a = length data ->
  Forall (fun i => i ∈ a) clusters ->
  exists cs, revise_loop data a clusters = Ok cs.
Proof.
  intros Hlen. induction 1 as [|i rest Hi _ (cs & Hcs)]; cbn [revise_loop].
  - by eexists.
  - rewrite (members_ok _ _ _ Hlen). cbn [mbind result_bind].
    pose proof (rows_labelled_nonempty data a i Hlen Hi) as Hne.
    unfold mean_axis0. destruct (rows_labelled data a i) eqn:E; [done|].
    cbn [mbind result_bind]. rewrite Hcs. cbn [mbind result_bind]. by eexists.
Qed.

Lemma revise_loop_empty_cluster (data : matrix) (a : assignment) (clusters : list nat) :
  length a = length data ->
  Exists (fun i => i ∉ a) clusters ->
  revise_loop data a clusters = Raise ZeroDivisionError.
Proof.
  intros Hlen. induction 1 as [i rest Hi | i rest _ IH]; cbn [revise_loop];
    rewrite (members_ok _ _ _ Hlen); cbn [mbind result_bind].
  - destruct (rows_labelled data a i) as [|p m] eqn:E; [done|].
    exfalso. apply Hi, (rows_labelled_elem data a i p). rewrite E.
    apply list_elem_of_here.
  - destruct (mean_axis0 (rows_labelled data a i)) as [c|e] eqn:E.
    + cbn [mbind result_bind]. by rewrite IH.
    + unfold mean_axis0 in E. by destruct (rows_labelled data a i); simplify_eq.
Qed.

(** X6.  With one label per point, [revise_centroids] returns [k] centroids
    exactly when every cluster index below [k] labels at least one point;
    when some cluster index below [k] labels no point it raises
    [ZeroDivisionError]. *)
Theorem revise_centroids_returns_iff_no_empty_cluster
  (data : matrix) (k : Z) (a : assignment) :
  length a = length data ->
  ((forall i, (i < Z.to_nat k)%nat -> i ∈ a) ->
   exists cs, revise_centroids data k a = Ok cs /\ length cs = Z.to_nat k) /\
  ((exists i, (i < Z.to_nat k)%nat /\ i ∉ a) ->
   revise_centroids data k a = Raise ZeroDivisionError).
Proof.
  intros Hlen. split.
  - intros Hall.
    destruct (revise_loop_ok data a (seq 0 (Z.to_nat k)) Hlen) as [cs Hcs].
    { apply Forall_forall. intros i Hi. apply Hall.
      apply list_elem_of_In, in_seq in Hi. lia. }
    exists cs. split; [done|]. by apply (revise_centroids_length data k a).
  - intros (i & Hi & Hnot). apply revise_loop_empty_cluster; [done|].
    apply Exists_exists. exists i. split; [|done].
    apply list_elem_of_In, in_seq. lia.
Qed.

Lemma revise_centroids_returns_iff_no_empty_cluster_witness :
  ((forall i, (i < Z.to_nat 3)%nat -> i ∈ [0; 2; 0; 2]%nat) ->
   exists cs, revise_centroids square4 3 [0; 2; 0; 2]%nat = Ok cs /\
              length cs = Z.to_nat 3) /\
  ((exists i, (i < Z.to_nat 3)%nat /\ i ∉ [0; 2; 0; 2]%nat) ->
   revise_centroids square4 3 [0; 2; 0; 2]%nat = Raise ZeroDivisionError).
Proof.
  apply (revise_centroids_returns_iff_no_empty_cluster square4 3 [0; 2; 0; 2]%nat).
  reflexivity.
Defined.

(** ** More on [run_kmeans] *)

Lemma all_equal_eq (a b : list nat) : all_equal a b = true -> a = b.
Proof.
  revert b. induction a as [|x a IH]; intros [|y b] H; simpl in H; try done.
  apply andb_true_iff in H as [Hxy Hab]. apply Nat.eqb_eq in Hxy as ->.
  f_equal. by apply IH.
Qed.


(** The loop keeps its centroids revised from the previous assignment; a
    loop left through [break] returns a pair that reproduces itself. *)
Lemma kmeans_loop_converged_fixed_point (data : matrix) (k : Z) (fuel itr : nat)
  (c : matrix) (prev cur : option (list nat)) (rec rec' : option (list Q))
  (e : loop_end) :
  (forall p, prev = Some p -> revise_centroids data k p = Ok c) ->
  kmeans_loop data k fuel itr c prev cur rec = (Ok e, rec') ->
  end_converged e = true ->
  exists a, end_assignment e = Some a /\
            assign_clusters data (end_centroids e) = Ok a /\
            revise_centroids data k a = Ok (end_centroids e).
Proof.
  revert itr c prev cur rec. induction fuel as [|fuel IH];
    intros itr c prev cur rec Hinv H Hconv.
  - cbn [kmeans_loop] in H. injection H as <- <-. discriminate.
  - loop_step H a Ea c' Er Eb; try discriminate.
    + injection H as <- <-. cbn [end_assignment end_centroids].
      destruct prev as [p|]; [|discriminate].
      apply all_equal_eq in Eb as ->. pose proof (Hinv a eq_refl) as Hrev.
      rewrite Hrev in Er. injection Er as <-. by exists a.
    + destruct rec as [history|].
      * destruct (compute_heterogeneity data k c' a) as [score|]; [|discriminate].
        eapply IH; [|exact H|done]. by intros p [= <-].
      * eapply IH; [|exact H|done]. by intros p [= <-].
Qed.

(** X8.  A run that stopped because the assignment no longer changed
    returns a fixed point of the two steps: assigning the points to the
    returned centroids gives the returned assignment, and revising the
    centroids from the returned assignment gives the returned centroids. *)
Theorem run_kmeans_converged_is_fixed_point
  (data : matrix) (k : Z) (initial_centroids : matrix) (maxiter : Z)
  (rec rec' : option (list Q)) (e : loop_end) :
  run_loop data k initial_centroids maxiter rec = (Ok e, rec') ->
  end_converged e = true ->
  exists a,
    run_kmeans data k initial_centroids maxiter rec
      = (Ok (end_centroids e, Some a), rec') /\
    assign_clusters data (end_centroids e) = Ok a /\
    revise_centroids data k a = Ok (end_centroids e).
Proof.
  intros H Hconv. pose proof H as H'. unfold run_loop in H'.
  apply kmeans_loop_converged_fixed_point in H' as (a & Ha & Hassign & Hrev);
    [|done|done].
  exists a. split; [|done]. unfold run_kmeans. rewrite H.
  cbn [mbind result_bind]. by rewrite Ha.
Qed.

Lemma run_kmeans_converged_is_fixed_point_witness :
  exists a,
    run_kmeans [[0]; [1]; [2]; [3]; [10]] 2 [[0]; [1]] 9 None
      = (Ok ([[6 # 4]; [10]], Some a), None) /\
    assign_clusters [[0]; [1]; [2]; [3]; [10]] [[6 # 4]; [10]] = Ok a /\
    revise_centroids [[0]; [1]; [2]; [3]; [10]] 2 a = Ok [[6 # 4]; [10]].
Proof.
  apply (run_kmeans_converged_is_fixed_point
           [[0]; [1]; [2]; [3]; [10]] 2 [[0]; [1]] 9 None None
           {| end_centroids := [[6 # 4]; [10]];
              end_assignment := Some [0; 0; 0; 0; 1]%nat;
              end_iterations := 4;
              end_converged := true |}).
  - reflexivity.
  - reflexivity.
Defined.

(** The outcome of a loop that ended through [break] or an exception is
    the outcome of the same loop with more iterations allowed. *)
Lemma kmeans_loop_more_fuel (data : matrix) (k : Z) (fuel fuel' itr : nat)
  (c : matrix) (prev cur : option (list nat)) (rec rec' : option (list Q))
  (r : result loop_end) :
  kmeans_loop data k fuel itr c prev cur rec = (r, rec') ->
  (forall e, r = Ok e -> end_converged e = true) ->
  (fuel <= fuel')%nat ->
  kmeans_loop data k fuel' itr c prev cur rec = (r, rec').
Proof.
  revert fuel' itr c prev cur rec. induction fuel as [|fuel IH];
    intros fuel' itr c prev cur rec H Hstop Hle.
  - cbn [kmeans_loop] in H. injection H as <- <-.
    by specialize (Hstop _ eq_refl).
  - destruct fuel' as [|fuel']; [lia|]. cbn [kmeans_loop] in *.
    destruct (assign_clusters data c) as [a|]; [|done].
    destruct (revise_centroids data k a) as [c'|]; [|done].
    destruct (match prev with Some p => all_equal p a | None => false end); [done|].
    destruct rec as [history|].
    + destruct (compute_heterogeneity data k c' a) as [score|]; [|done].
      apply IH; [done | done | lia].
    + apply IH; [done | done | lia].
Qed.

(** X9.  Once a run has stopped on its own, a larger iteration cap changes
    nothing: if [run_kmeans] with cap [maxiter] ended because the assignment
    no longer changed, or ended in an exception, then with any cap
    [maxiter' >= maxiter] it returns the same result and leaves the same
    recorded values. *)
Theorem run_kmeans_larger_cap_same_outcome
  (data : matrix) (k : Z) (initial_centroids : matrix) (maxiter maxiter' : Z)
  (rec rec' : option (list Q)) (r : result loop_end) :
  run_loop data k initial_centroids maxiter rec = (r, rec') ->
  (forall e, r = Ok e -> end_converged e = true) ->
  (maxiter <= maxiter')%Z ->
  run_loop data k initial_centroids maxiter' rec = (r, rec') /\
  run_kmeans data k initial_centroids maxiter' rec
    = run_kmeans data k initial_centroids maxiter rec.
Proof.
  intros H Hstop Hle.
  assert (run_loop data k initial_centroids maxiter' rec = (r, rec')) as H'.
  { unfold run_loop in *. eapply kmeans_loop_more_fuel; [exact H | done | lia]. }
  split; [done|]. unfold run_kmeans. by rewrite H, H'.
Qed.

Lemma run_kmeans_larger_cap_same_outcome_witness :
  run_loop [[0]; [1]; [2]; [3]; [10]] 2 [[0]; [1]] 50 None
    = (Ok {| end_centroids := [[6 # 4]; [10]];
             end_assignment := Some [0; 0; 0; 0; 1]%nat;
             end_iterations := 4;
             end_converged := true |}, None) /\
  run_kmeans [[0]; [1]; [2]; [3]; [10]] 2 [[0]; [1]] 50 None
    = run_kmeans [[0]; [1]; [2]; [3]; [10]] 2 [[0]; [1]] 4 None.
Proof.
  apply (run_kmeans_larger_cap_same_outcome
           [[0]; [1]; [2]; [3]; [10]] 2 [[0]; [1]] 4 50 None None).
  - reflexivity.
  - by intros e [= <-].
  - lia.
Defined.




(** With recording on, the value appended last is the heterogeneity of the
    pair the loop holds: [base] is the caller's list, [vals0] what this call
    has appended so far. *)
Lemma kmeans_loop_last_recorded (data : matrix) (k : Z) (fuel itr : nat)
  (c : matrix) (prev cur : option (list nat)) (base vals0 : list Q)
  (rec' : option (list Q)) (e : loop_end) :
  (forall p, prev = Some p ->
     cur = Some p /\ revise_centroids data k p = Ok c /\
     exists pre s, vals0 = pre ++ [s] /\ compute_heterogeneity data k c p = Ok s) ->
  (prev = None -> (0 < fuel)%nat) ->
  kmeans_loop data k fuel itr c prev cur (Some (base ++ vals0)) = (Ok e, rec') ->
  exists a pre s,
    end_assignment e = Some a /\ rec' = Some (base ++ pre ++ [s]) /\
    compute_heterogeneity data k (end_centroids e) a = Ok s.
Proof.
  revert itr c prev cur vals0. induction fuel as [|fuel IH];
    intros itr c prev cur vals0 Hinv Hfuel H.
  - cbn [kmeans_loop] in H. injection H as <- <-.
    destruct prev as [p|]; [|specialize (Hfuel eq_refl); lia].
    destruct (Hinv p eq_refl) as (-> & _ & pre & s & -> & Hs).
    by exists p, pre, s.
  - cbn [kmeans_loop] in H.
    destruct (assign_clusters data c) as [a|] eqn:Ea; [|discriminate].
    destruct (revise_centroids data k a) as [c'|] eqn:Er; [|discriminate].
    destruct (match prev with Some p => all_equal p a | None => false end) eqn:Eb.
    + injection H as <- <-. cbn [end_assignment end_centroids].
      destruct prev as [p|]; [|discriminate].
      apply all_equal_eq in Eb as ->.
      destruct (Hinv a eq_refl) as (_ & Hrev & pre & s & -> & Hs).
      rewrite Hrev in Er. injection Er as <-. by exists a, pre, s.
    + destruct (compute_heterogeneity data k c' a) as [score|] eqn:Es; [|discriminate].
      rewrite <- app_assoc in H.
      apply (IH _ _ _ _ (vals0 ++ [score])) in H; [done| |done].
      intros p [= <-]. split; [done|]. split; [done|]. by exists vals0, score.
Qed.

(** X11.  With recording on and [maxiter >= 1], the last value a returning
    call of [run_kmeans] has appended is the heterogeneity of the centroids
    and assignment it returns, as [compute_heterogeneity] gives it; this
    holds also when the call stopped because the assignment no longer
    changed and appended nothing in its last iteration. *)
Theorem run_kmeans_last_recorded_is_final_heterogeneity
  (data : matrix) (k : Z) (initial_centroids : matrix) (maxiter : Z)
  (history : list Q) (rec' : option (list Q)) (c : matrix)
  (oa : option (list nat)) :
  (1 <= maxiter)%Z ->
  run_kmeans data k initial_centroids maxiter (Some history) = (Ok (c, oa), rec') ->
  exists a vals s,
    oa = Some a /\ rec' = Some (history ++ vals ++ [s]) /\
    compute_heterogeneity data k c a = Ok s.
Proof.
  intros Hmax H. apply run_kmeans_inv in H as (e & He & -> & ->).
  unfold run_loop in He.
  replace (Some history) with (Some (history ++ [])) in He by (by rewrite app_nil_r).
  apply kmeans_loop_last_recorded in He as (a & pre & s & Ha & Hrec & Hs);
    [by exists a, pre, s | done | intros _; lia].
Qed.

Lemma run_kmeans_last_recorded_is_final_heterogeneity_witness :
  exists a vals s,
    Some [0; 0; 0; 0; 1]%nat = Some a /\
    snd (run_kmeans [[0]; [1]; [2]; [3]; [10]] 2 [[0]; [1]] 9 (Some [7]))
      = Some ([7] ++ vals ++ [s]) /\
    compute_heterogeneity [[0]; [1]; [2]; [3]; [10]] 2 [[6 # 4]; [10]] a = Ok s.
Proof.
  apply (run_kmeans_last_recorded_is_final_heterogeneity
           [[0]; [1]; [2]; [3]; [10]] 2 [[0]; [1]] 9 [7]).
  - lia.
  - reflexivity.
Defined.





(** X22.  [run_kmeans] does not check [k].  With [k <= 0] the first
    revision returns no centroid at all, so with [maxiter >= 2] the call
    raises [ValueError]: in its first iteration if the initial Centroid Set
    is refused, and otherwise in its second, which has no centroid to assign
    to. *)
Theorem run_kmeans_without_clusters
  (data : matrix) (k : Z) (initial_centroids : matrix) (maxiter : Z)
  (rec : option (list Q)) :
  (k <= 0)%Z -> (2 <= maxiter)%Z ->
  fst (run_kmeans data k initial_centroids maxiter rec) = Raise ValueError.
Proof.
  intros Hk Hmax. unfold run_kmeans, run_loop.
  destruct (Z.to_nat maxiter) as [|[|fuel]] eqn:E; [lia | lia |].
  cbn [kmeans_loop].
  destruct initial_centroids as [|c0 cs]; [by destruct rec|].
  rewrite assign_clusters_eq by done.
  unfold revise_centroids, compute_heterogeneity.
  replace (Z.to_nat k) with 0%nat by lia.
  cbn [seq revise_loop heterogeneity_loop]. by destruct rec.
Qed.

Lemma run_kmeans_without_clusters_witness :
  fst (run_kmeans square4 0 [[0; 0]; [10; 0]] 2 (Some [])) = Raise ValueError.
Proof.
  apply (run_kmeans_without_clusters square4 0 [[0; 0]; [10; 0]] 2 (Some [])); lia.
Defined.

(** ** [smart_initialize] *)

Lemma row_at_elem (data : matrix) (idx : nat) (r : list Q) :
  row_at data idx = Ok r -> data !! idx = Some r /\ r ∈ data.
Proof.
  unfold row_at. destruct (data !! idx) eqn:E; [|done]. intros [= <-].
  split; [done|]. by eapply list_elem_of_lookup_2.
Qed.

Lemma smart_loop_rows (G : Generator) (data : matrix) (n : nat) (cs : matrix)
  (sqd : list Q) (g g' : gstate G) (cs' : matrix) :
  smart_loop G data n cs sqd g = Ok (cs', g') ->
  length cs' = (length cs + n)%nat /\
  (Forall (fun c => c ∈ data) cs -> Forall (fun c => c ∈ data) cs').
Proof.
  revert cs sqd g. induction n as [|n IH]; intros cs sqd g; cbn [smart_loop].
  - intros [= <- <-]. split; [lia | done].
  - destruct (Qeq_bool (Qsum sqd) 0); [done|].
    destruct (draw_choice G g _) as [idx g1].
    destruct (row_at data idx) as [row|] eqn:Er; [|done]. cbn [mbind result_bind].
    intros H. apply IH in H as [Hlen Hin]. rewrite length_app in Hlen. simpl in Hlen.
    split; [lia|]. intros Hcs. apply Hin. apply Forall_app. split; [done|].
    constructor; [|constructor]. by apply row_at_elem in Er as [_ ?].
Qed.

(** X13.  What [smart_initialize] returns, when it returns, is a Centroid
    Set of exactly [k] rows of the dataset, with [k >= 1]. *)
Theorem smart_initialize_returns_k_rows
  (G : Generator) (data : matrix) (k : Z) (seed : option Z) (g g' : gstate G)
  (centroids : matrix) :
  smart_initialize G data k seed g = Ok (centroids, g') ->
  (1 <= k)%Z /\ length centroids = Z.to_nat k /\
  Forall (fun c => c ∈ data) centroids.
Proof.
  unfold smart_initialize.
  destruct (seed_if_given G seed g) as [g1|]; [|done]. cbn [mbind result_bind].
  destruct (Z.ltb_spec k 0) as [|Hk0]; [done|].
  destruct (Nat.eqb (length data) 0); [done|].
  destruct (draw_int G g1 (length data)) as [idx g2].
  destruct (Z.eqb_spec k 0) as [|Hk1]; [done|].
  destruct (row_at data idx) as [row|] eqn:Er; [|done]. cbn [mbind result_bind].
  intros Hloop. apply smart_loop_rows in Hloop as [Hlen Hin]. simpl in Hlen.
  split; [lia|]. split; [lia|]. apply Hin. constructor; [|constructor].
  by apply row_at_elem in Er as [_ ?].
Qed.

Lemma smart_initialize_returns_k_rows_witness :
  (1 <= 2)%Z /\ length [[10; 0]; [0; 0]] = Z.to_nat 2 /\
  Forall (fun c => c ∈ square4) [[10; 0]; [0; 0]].
Proof.
  apply (smart_initialize_returns_k_rows digits square4 2 (Some 14%Z) 14%Z 1%Z).
  reflexivity.
Defined.



(** ** More on [kmeans_multiple_runs] *)

Lemma first_min_singleton (x : Q) : first_min [x] 0.
Proof.
  exists x. split; [done|]. split.
  - intros [|j] w Hw; simpl in Hw; [injection Hw as <-; apply Qle_refl | done].
  - intros j w Hj. lia.
Qed.

Lemma first_min_snoc_keep (row : list Q) (b : nat) (v x : Q) :
  row !! b = Some v -> first_min row b -> v <= x -> first_min (row ++ [x]) b.
Proof.
  intros Hb (v' & Hv' & Hmin & Hfirst) Hle.
  rewrite Hb in Hv'. injection Hv' as <-.
  exists v. split; [by apply lookup_app_l_Some|]. split.
  - intros j w Hj. apply lookup_app_Some in Hj as [Hj|[_ Hj]]; [eauto|].
    by apply list_lookup_singleton_Some in Hj as [_ <-].
  - intros j w Hlt Hj. apply lookup_lt_Some in Hb.
    rewrite lookup_app_l in Hj by lia. eauto.
Qed.

Lemma first_min_snoc_new (row : list Q) (b : nat) (v x : Q) :
  row !! b = Some v -> first_min row b -> x < v ->
  first_min (row ++ [x]) (length row).
Proof.
  intros Hb (v' & Hv' & Hmin & Hfirst) Hlt.
  rewrite Hb in Hv'. injection Hv' as <-.
  exists x. split; [by rewrite list_lookup_middle|]. split.
  - intros j w Hj. apply lookup_app_Some in Hj as [Hj|[_ Hj]].
    + specialize (Hmin _ _ Hj). lra.
    + apply list_lookup_singleton_Some in Hj as [_ <-]. lra.
  - intros j w Hj Hw. rewrite lookup_app_l in Hw by lia.
    specialize (Hmin _ _ Hw). lra.
Qed.

Lemma record_trial_best (G : Generator)
  (done : list (list (list Q) * option (list nat) * Q * gstate G))
  (st : driver_state G) (seed : Z) (c : matrix) (a : option (list nat)) (h : Q)
  (g : gstate G) :
  best_so_far G done st ->
  best_so_far G (done ++ [(c, a, h, g)]) (record_trial G st seed c a h g).
Proof.
  intros Hbest. unfold record_trial.
  destruct done as [|r0 done'].
  - destruct Hbest as (-> & _ & _). cbn [below app best_so_far].
    exists 0%nat, c, a, h, g. split; [done|]. split; [apply first_min_singleton | done].
  - set (done := r0 :: done') in *.
    assert (exists r l, done ++ [(c, a, h, g)] = r :: l) as (r & l & Hshape)
      by (by eexists _, _).
    unfold best_so_far at 1. rewrite Hshape. rewrite <- Hshape. clear r l Hshape.
    destruct Hbest as (b & cb & ab & hb & gb & Hb & Hmin & Hm & Hc & Ha).
    assert (map run_heterogeneity done !! b = Some hb) as Hrow
      by (by rewrite list_lookup_fmap, Hb).
    rewrite Hm. destruct (below h (Some hb)) eqn:B.
    + apply below_true in B. exists (length done), c, a, h, g.
      split; [by rewrite list_lookup_middle|]. split; [|done].
      rewrite map_app. cbn [map].
      replace (length done) with (length (map run_heterogeneity done))
        by apply length_map.
      by apply (first_min_snoc_new _ b hb).
    + apply below_false in B. exists b, cb, ab, hb, gb.
      split; [by apply lookup_app_l_Some|]. split; [|done].
      rewrite map_app. cbn [map]. by apply (first_min_snoc_keep _ b hb).
Qed.

Section DriverLoop.

Context (G : Generator) (ur : list (list Q) -> result (list (list Q))).
Context (data : list (list Q)) (k maxiter : Z) (now : nat -> Z).

(** Runs that all complete: the loop over their positions in the seed list
    ends with the best of them kept. *)
Lemma driver_loop_all_ok
  (seeds : list Z) (rs : list (list (list Q) * option (list nat) * Q * gstate G)) :
  Forall2 (fun s r => trial G ur data k maxiter s = Ok r) seeds rs ->
  forall (pre post : list Z) done st,
    best_so_far G done st ->
    exists st',
      driver_loop G ur data k maxiter (Some (pre ++ seeds ++ post)) now
        (seq (length pre) (length seeds)) st = Ok st' /\
      best_so_far G (done ++ rs) st'.
Proof.
  induction 1 as [|s [[[c a] h] g] seeds rs Hs _ IH]; intros pre post done st Hbest.
  - exists st. rewrite app_nil_r. by split.
  - cbn [length seq driver_loop trial_seed]. cbn [app].
    rewrite list_lookup_middle by done. cbn [mbind result_bind].
    rewrite Hs. cbn [mbind result_bind].
    destruct (IH (pre ++ [s]) post (done ++ [(c, a, h, g)])
                (record_trial G st s c a h g)) as (st' & Hst' & Hb').
    { by apply record_trial_best. }
    exists st'. rewrite <- !app_assoc in *. cbn [app] in *.
    rewrite length_app in Hst'. cbn [length] in Hst'.
    replace (length pre + 1)%nat with (S (length pre)) in Hst' by lia.
    by split.
Qed.

Lemma driver_loop_app (seed_list : option (list Z)) (t1 t2 : list nat)
  (st : driver_state G) :
  driver_loop G ur data k maxiter seed_list now (t1 ++ t2) st =
  (st1 ← driver_loop G ur data k maxiter seed_list now t1 st;
   driver_loop G ur data k maxiter seed_list now t2 st1).
Proof.
  revert st. induction t1 as [|i t1 IH]; intros st; cbn [app driver_loop]; [done|].
  destruct (trial_seed seed_list now i) as [seed|]; [|done]. cbn [mbind result_bind].
  destruct (trial G ur data k maxiter seed) as [[[[c a] h] g]|]; [|done].
  cbn [mbind result_bind]. apply IH.
Qed.

(** After a prefix of runs that complete, the driver goes on with the
    remaining positions. *)
Lemma run_driver_after_prefix
  (used post : list Z) (rs : list (list (list Q) * option (list nat) * Q * gstate G))
  (num_runs : Z) (g : gstate G) :
  Forall2 (fun s r => trial G ur data k maxiter s = Ok r) used rs ->
  (length used <= Z.to_nat num_runs)%nat ->
  exists st',
    best_so_far G rs st' /\
    run_driver G ur data k maxiter num_runs (Some (used ++ post)) now g =
    driver_loop G ur data k maxiter (Some (used ++ post)) now
      (seq (length used) (Z.to_nat num_runs - length used)) st'.
Proof.
  intros Hok Hle. unfold run_driver.
  destruct (driver_loop_all_ok used rs Hok [] post [] (driver_init G g))
    as (st' & Hst' & Hb); [done|].
  cbn [app length] in Hst', Hb. exists st'. split; [done|].
  assert (seq 0 (Z.to_nat num_runs)
          = seq 0 (length used) ++ seq (length used) (Z.to_nat num_runs - length used))
    as ->.
  { rewrite <- seq_app. f_equal. lia. }
  by rewrite driver_loop_app, Hst'.
Qed.

End DriverLoop.

(** X18.  A seed list shorter than the number of runs: when every seed of
    the list gives a run that completes and [num_runs] exceeds the length of
    the list, [kmeans_multiple_runs] raises [IndexError] after those runs
    and returns nothing. *)
Theorem kmeans_multiple_runs_short_seed_list
  (G : Generator) (ur : list (list Q) -> result (list (list Q)))
  (data : matrix) (k maxiter num_runs : Z) (now : nat -> Z) (g : gstate G)
  (seeds : list Z)
  (rs : list (list (list Q) * option (list nat) * Q * gstate G)) :
  Forall2 (fun s r => trial G ur data k maxiter s = Ok r) seeds rs ->
  (Z.of_nat (length seeds) < num_runs)%Z ->
  kmeans_multiple_runs G ur data k maxiter num_runs (Some seeds) now g
    = Raise IndexError.
Proof.
  intros Hok Hlt.
  destruct (run_driver_after_prefix G ur data k maxiter now seeds [] rs num_runs g Hok)
    as (st' & _ & Hrun); [lia|].
  rewrite app_nil_r in Hrun. unfold kmeans_multiple_runs. rewrite Hrun.
  destruct (Z.to_nat num_runs - length seeds)%nat as [|m] eqn:E; [lia|].
  cbn [seq driver_loop trial_seed].
  by rewrite (lookup_ge_None_2 seeds (length seeds)) by lia.
Qed.

Lemma kmeans_multiple_runs_short_seed_list_witness :
  kmeans_multiple_runs digits no_row square4 2 5 3 (Some [1; 2]%Z) ticking 0%Z
    = Raise IndexError.
Proof.
  apply (kmeans_multiple_runs_short_seed_list digits no_row square4 2 5 3 ticking 0%Z
           [1; 2]%Z
           [([[10 # 2; 2 # 2]; [10 # 2; 0 # 2]], Some [1; 0; 1; 0]%nat, 6553600 # 65536, 0%Z);
            ([[20 # 2; 1 # 2]; [0 # 2; 1 # 2]], Some [1; 1; 0; 0]%nat, 65536 # 65536, 0%Z)]).
  - repeat constructor.
  - simpl. lia.
Defined.

(** X19.  One failing run ends the search: when the runs of the seeds
    before position [i] complete, the run of the seed at position [i] raises
    an exception and [num_runs > i], [kmeans_multiple_runs] raises that
    exception; the runs already completed are not returned and no later
    seed is tried. *)
Theorem kmeans_multiple_runs_failing_run_aborts
  (G : Generator) (ur : list (list Q) -> result (list (list Q)))
  (data : matrix) (k maxiter num_runs : Z) (now : nat -> Z) (g : gstate G)
  (used post : list Z) (s : Z) (e : exn)
  (rs : list (list (list Q) * option (list nat) * Q * gstate G)) :
  Forall2 (fun s r => trial G ur data k maxiter s = Ok r) used rs ->
  trial G ur data k maxiter s = Raise e ->
  (Z.of_nat (length used) < num_runs)%Z ->
  kmeans_multiple_runs G ur data k maxiter num_runs (Some (used ++ s :: post)) now g
    = Raise e.
Proof.
  intros Hok Hfail Hlt.
  destruct (run_driver_after_prefix G ur data k maxiter now used (s :: post) rs
              num_runs g Hok) as (st' & _ & Hrun); [lia|].
  unfold kmeans_multiple_runs. rewrite Hrun.
  destruct (Z.to_nat num_runs - length used)%nat as [|m] eqn:E; [lia|].
  cbn [seq driver_loop trial_seed].
  rewrite list_lookup_middle by done. cbn [mbind result_bind]. by rewrite Hfail.
Qed.

Lemma kmeans_multiple_runs_failing_run_aborts_witness :
  kmeans_multiple_runs digits no_row square4 2 5 3 (Some ([2] ++ (-1) :: [1])%Z)
    ticking 0%Z = Raise ValueError.
Proof.
  apply (kmeans_multiple_runs_failing_run_aborts digits no_row square4 2 5 3 ticking 0%Z
           [2]%Z [1]%Z (-1)%Z ValueError
           [([[20 # 2; 1 # 2]; [0 # 2; 1 # 2]], Some [1; 1; 0; 0]%nat, 65536 # 65536, 0%Z)]).
  - repeat constructor.
  - reflexivity.
  - simpl. lia.
Defined.

(** * Properties of the program over the numbers of its libraries *)

Import Num.

(** ** [binary64] meets what the statements assume *)

Lemma lex3_Lt (x y : Z * Z * Z) :
  lex3 x y = Lt <->
  (fst (fst x) < fst (fst y) \/
   (fst (fst x) = fst (fst y) /\
    (snd (fst x) < snd (fst y) \/
     (snd (fst x) = snd (fst y) /\ snd x < snd y))))%Z.
Proof.
  unfold lex3.
  destruct (Z.compare_spec (fst (fst x)) (fst (fst y))),
           (Z.compare_spec (snd (fst x)) (snd (fst y))),
           (Z.compare_spec (snd x) (snd y));
    split; intros H'; try discriminate; try reflexivity; lia.
Qed.

Lemma lex3_Gt (x y : Z * Z * Z) : lex3 x y = Gt <-> lex3 y x = Lt.
Proof.
  rewrite lex3_Lt. unfold lex3.
  destruct (Z.compare_spec (fst (fst x)) (fst (fst y))),
           (Z.compare_spec (snd (fst x)) (snd (fst y))),
           (Z.compare_spec (snd x) (snd y));
    split; intros H'; try discriminate; try reflexivity; lia.
Qed.

Lemma lex3_refl (x : Z * Z * Z) : lex3 x x = Eq.
Proof. unfold lex3. by rewrite !Z.compare_refl. Qed.

Lemma SFcompare_key (a b : spec_float) :
  SFcompare a b =
  match sf_key a, sf_key b with
  | Some x, Some y => Some (lex3 x y)
  | _, _ => None
  end.
Proof.
  destruct a as [[]|[]| |[] ma ea], b as [[]|[]| |[] mb eb];
    try reflexivity; unfold lex3; cbn [SFcompare sf_key fst snd].
  rewrite Z.compare_opp, (Z.compare_antisym ea eb).
  change (Z.neg ma ?= Z.neg mb)%Z with (CompOpp (Pos.compare_cont Eq ma mb)).
  by destruct (ea ?= eb)%Z.
Qed.

Lemma ltb_key (x y : float) :
  PrimFloat.ltb x y =
  match sf_key (Prim2SF x), sf_key (Prim2SF y) with
  | Some a, Some b => match lex3 a b with Lt => true | _ => false end
  | _, _ => false
  end.
Proof.
  rewrite FloatAxioms.ltb_spec. unfold SFltb. rewrite SFcompare_key.
  by destruct (sf_key (Prim2SF x)), (sf_key (Prim2SF y)).
Qed.

Lemma leb_key (x y : float) :
  PrimFloat.leb x y =
  match sf_key (Prim2SF x), sf_key (Prim2SF y) with
  | Some a, Some b => match lex3 a b with Gt => false | _ => true end
  | _, _ => false
  end.
Proof.
  rewrite FloatAxioms.leb_spec. unfold SFleb. rewrite SFcompare_key.
  by destruct (sf_key (Prim2SF x)), (sf_key (Prim2SF y)).
Qed.

Lemma is_nan_key (x : float) :
  PrimFloat.is_nan x =
  match sf_key (Prim2SF x) with Some _ => false | None => true end.
Proof.
  unfold PrimFloat.is_nan. rewrite FloatAxioms.eqb_spec. unfold SFeqb. rewrite SFcompare_key.
  destruct (sf_key (Prim2SF x)); [|done]. by rewrite lex3_refl.
Qed.

Lemma binary64_ordered : Ordered binary64.
Proof.
  split; cbn [ltb geb is_nan inf binary64]; intros x.
  - rewrite ltb_key. destruct (sf_key (Prim2SF x)); [|done]. by rewrite lex3_refl.
  - intros y z. rewrite !ltb_key.
    destruct (sf_key (Prim2SF x)) as [a|], (sf_key (Prim2SF y)) as [b|],
             (sf_key (Prim2SF z)) as [c|]; try done.
    destruct (lex3 a b) eqn:Hab; try done. destruct (lex3 b c) eqn:Hbc; try done.
    intros _ _. apply lex3_Lt in Hab, Hbc.
    assert (lex3 a c = Lt) as -> by (apply lex3_Lt; lia). done.
  - intros y z. rewrite !ltb_key, is_nan_key.
    destruct (sf_key (Prim2SF x)) as [a|], (sf_key (Prim2SF y)) as [b|],
             (sf_key (Prim2SF z)) as [c|]; try done.
    destruct (lex3 a b) eqn:Hab; try done. intros _ _. apply lex3_Lt in Hab.
    destruct (lex3 a c) eqn:Hac; [|by left|].
    + right. assert (lex3 c b = Lt) as ->; [|done].
      apply lex3_Lt. unfold lex3 in Hac.
      destruct (Z.compare_spec (fst (fst a)) (fst (fst c))); try done.
      destruct (Z.compare_spec (snd (fst a)) (snd (fst c))); try done.
      apply Z.compare_eq in Hac. lia.
    + right. apply lex3_Gt in Hac. apply lex3_Lt in Hac.
      assert (lex3 c b = Lt) as ->; [|done]. apply lex3_Lt. lia.
  - intros y. rewrite ltb_key, is_nan_key. by destruct (sf_key (Prim2SF x)).
  - intros y. rewrite leb_key, is_nan_key.
    destruct (sf_key (Prim2SF x)); [done|]. by destruct (sf_key (Prim2SF y)).
  - intros y. rewrite leb_key, ltb_key, !is_nan_key.
    destruct (sf_key (Prim2SF x)) as [a|], (sf_key (Prim2SF y)) as [b|]; try done.
    intros _ _. destruct (lex3 a b) eqn:Hab.
    + destruct (lex3 b a) eqn:Hba; try done.
      apply lex3_Gt in Hba. by rewrite Hab in Hba.
    + apply lex3_Gt in Hab as Hba. by rewrite (proj2 (lex3_Gt b a)) by done.
    + apply lex3_Gt in Hab. by rewrite Hab.
Qed.

Lemma binary64_shaped : Shaped binary64.
Proof.
  split. intros X Y D. cbn [pairwise_distances binary64].
  unfold f64_pairwise_distances. destruct X as [|r X]; [done|].
  destruct (check_array _ _ && check_array _ _); [|done]. intros [= <-].
  change (map (euclidean r) Y :: map (fun x => map (euclidean x) Y) X)
    with (map (fun x => map (euclidean x) Y) (r :: X)).
  split; [apply length_map|].
  apply Forall_forall. intros row Hrow.
  apply list_elem_of_fmap in Hrow as (x & -> & _). apply length_map.
Qed.

Lemma Prim2SF_zero : Prim2SF 0%float = S754_zero false.
Proof. reflexivity. Qed.

Lemma not_negative_binary64 (x : float) :
  not_negative binary64 x <-> sf_not_negative (Prim2SF x).
Proof.
  unfold not_negative. cbn [is_nan geb zero binary64].
  rewrite is_nan_key, FloatAxioms.leb_spec, Prim2SF_zero.
  destruct (Prim2SF x) as [[]|[]| |[] m e]; cbn; intuition congruence.
Qed.

Lemma binary_round_aux_sign (prec emax : Z) (s : bool) (m e : Z) (l : location) :
  match binary_round_aux prec emax s m e l with
  | S754_nan => True
  | S754_zero s' | S754_infinity s' | S754_finite s' _ _ => s' = s
  end.
Proof.
  unfold binary_round_aux.
  destruct (shr_fexp prec emax m e l) as [mrs' e'].
  destruct (shr_fexp prec emax _ e' loc_Exact) as [mrs'' e''].
  destruct (shr_m mrs''); [done | | done]. by destruct (Z.leb _ _).
Qed.

Lemma binary_round_aux_not_negative (m e : Z) (l : location) :
  sf_not_negative (binary_round_aux prec emax false m e l).
Proof.
  pose proof (binary_round_aux_sign prec emax false m e l) as H.
  by destruct (binary_round_aux prec emax false m e l).
Qed.

Lemma SFmul_square_not_negative (a : spec_float) :
  sf_not_negative (SF64mul a a).
Proof.
  destruct a as [s|s| |s m e]; cbn; try done.
  - by destruct s.
  - destruct s; apply binary_round_aux_not_negative.
Qed.

Lemma binary_round_not_negative (m : positive) (e : Z) :
  sf_not_negative (binary_round prec emax false m e).
Proof.
  unfold binary_round. destruct (shl_align _ _ _) as [mz ez].
  apply binary_round_aux_not_negative.
Qed.

Lemma SFadd_not_negative (a b : spec_float) :
  sf_not_negative a -> sf_not_negative b -> sf_not_negative (SF64add a b).
Proof.
  destruct a as [sa|sa| |sa ma ea], b as [sb|sb| |sb mb eb];
    cbn -[binary_normalize]; try done; intros Ha Hb; subst; try done.
  - by destruct sa, sb.
  - apply binary_round_not_negative.
Qed.

Lemma add_not_negative_binary64 (x y : float) :
  not_negative binary64 x -> not_negative binary64 y ->
  not_negative binary64 (x + y)%float.
Proof.
  rewrite !not_negative_binary64, FloatAxioms.add_spec. apply SFadd_not_negative.
Qed.

Lemma fold_add_not_negative (l : list float) :
  forall acc : float,
    not_negative binary64 acc -> Forall (not_negative binary64) l ->
    not_negative binary64 (fold_left PrimFloat.add l acc).
Proof.
  induction l as [|x l IH]; intros acc Hacc Hall; [done|].
  apply Forall_cons in Hall as [Hx Hall]. cbn [fold_left].
  apply IH; [by apply add_not_negative_binary64 | done].
Qed.

Lemma binary64_summing : Summing binary64.
Proof.
  split.
  - by right.
  - intros x. cbn [square binary64].
    rewrite not_negative_binary64, FloatAxioms.mul_spec.
    apply SFmul_square_not_negative.
  - apply add_not_negative_binary64.
  - intros M HM. cbn [np_sum binary64]. unfold f64_sum.
    apply fold_add_not_negative; [by right | by apply Forall_concat].
Qed.

(** ** The assignment step over computed distances *)

Section ArgminFacts.

Context (L : Library) (HO : Ordered L).

Lemma argmin_of_lt (row : list (num L)) (r : nat) :
  argmin_of L row r -> (r < length row)%nat.
Proof.
  intros [(v & Hv & _)|[_ (v & Hv & _)]]; by apply lookup_lt_Some in Hv.
Qed.

Lemma geb_true_inv (x y : num L) :
  is_nan L y = false -> geb L x y = true ->
  is_nan L x = false /\ ltb L x y = false.
Proof.
  intros Hy Hge.
  destruct (is_nan L x) eqn:Hx; [by rewrite (geb_nan L HO) in Hge|].
  split; [done|]. rewrite (geb_ltb L HO) in Hge by done.
  by destruct (ltb L x y).
Qed.

Lemma geb_false_inv (x y : num L) :
  is_nan L x = false -> is_nan L y = false -> geb L x y = false ->
  ltb L x y = true.
Proof.
  intros Hx Hy Hge. rewrite (geb_ltb L HO) in Hge by done.
  by destruct (ltb L x y).
Qed.

(** The scan of [np.argmin]: [pre] is the part of the row already seen, none
    of it NaN, and [best], at position [bi], is its first minimum. *)
Lemma argmin_from_argmin_of (rest : list (num L)) :
  forall (pre : list (num L)) (best : num L) (bi : nat),
    pre !! bi = Some best ->
    Forall (fun w => is_nan L w = false) pre ->
    (forall j w, pre !! j = Some w -> ltb L w best = false) ->
    (forall j w, (j < bi)%nat -> pre !! j = Some w -> ltb L best w = true) ->
    argmin_of L (pre ++ rest) (argmin_from L best bi (length pre) rest).
Proof.
  induction rest as [|x rest IH]; intros pre best bi Hbi Hnan Hmin Hfirst.
  - rewrite app_nil_r. right. split; [done|]. by exists best.
  - assert (is_nan L best = false) as Hbest.
    { rewrite Forall_forall in Hnan. apply Hnan. by eapply list_elem_of_lookup_2. }
    assert (pre ++ x :: rest = (pre ++ [x]) ++ rest) as Happ
      by (by rewrite <- app_assoc).
    assert (S (length pre) = length (pre ++ [x])) as Hlen
      by (rewrite length_app; simpl; lia).
    cbn [argmin_from]. destruct (geb L x best) eqn:Hge.
    + apply geb_true_inv in Hge as [Hx Hlt]; [|done].
      rewrite Happ, Hlen. apply IH.
      * by apply lookup_app_l_Some.
      * apply Forall_app. split; [done|]. by constructor.
      * intros j w Hj. apply lookup_app_Some in Hj as [Hj|[_ Hj]]; [eauto|].
        by apply list_lookup_singleton_Some in Hj as [_ <-].
      * intros j w Hlt' Hj. apply lookup_lt_Some in Hbi.
        rewrite lookup_app_l in Hj by lia. eauto.
    + destruct (is_nan L x) eqn:Hx.
      * left. exists x. split; [by rewrite list_lookup_middle|]. split; [done|].
        intros j w Hj Hw. rewrite lookup_app_l in Hw by done.
        rewrite Forall_forall in Hnan. apply Hnan. by eapply list_elem_of_lookup_2.
      * apply geb_false_inv in Hge; [|done..].
        rewrite Happ, Hlen. apply IH.
        -- by rewrite list_lookup_middle.
        -- apply Forall_app. split; [done|]. by constructor.
        -- intros j w Hj. apply lookup_app_Some in Hj as [Hj|[_ Hj]].
           ++ destruct (ltb L w x) eqn:Hwx; [|done].
              rewrite <- (Hmin _ _ Hj). symmetry.
              by apply (ltb_trans L HO w x best).
           ++ apply list_lookup_singleton_Some in Hj as [_ <-].
              apply (ltb_irrefl L HO).
        -- intros j w Hj Hw. rewrite lookup_app_l in Hw by done.
           assert (is_nan L w = false) as Hwn.
           { rewrite Forall_forall in Hnan. apply Hnan.
             by eapply list_elem_of_lookup_2. }
           destruct (ltb_split L HO x best w Hge Hwn) as [H|H]; [done|].
           by rewrite (Hmin _ _ Hw) in H.
Qed.

Lemma argmin_row_argmin_of (row : list (num L)) (r : nat) :
  argmin_row L row = Ok r -> argmin_of L row r.
Proof.
  destruct row as [|x rest]; [done|]. cbn [argmin_row]. intros [= <-].
  destruct (is_nan L x) eqn:Hx.
  - left. exists x. split; [done|]. split; [done|]. intros j w Hj. lia.
  - apply (argmin_from_argmin_of rest [x] x 0).
    + done.
    + by constructor.
    + intros [|j] w Hj; [|done]. injection Hj as <-. apply (ltb_irrefl L HO).
    + intros j w Hj. lia.
Qed.

Lemma argmin_axis1_argmin_of (distances : list (list (num L))) :
  Forall (fun row => row <> []) distances ->
  exists a, argmin_axis1 L distances = Ok a /\
            Forall2 (argmin_of L) distances a.
Proof.
  induction 1 as [|row distances Hrow _ (a & Ha & Hall)].
  - by exists [].
  - destruct (argmin_row L row) as [r|e] eqn:Hr.
    + exists (r :: a). cbn [argmin_axis1]. rewrite Hr, Ha. split; [done|].
      constructor; [by apply argmin_row_argmin_of | done].
    + by destruct row.
Qed.

End ArgminFacts.

(** C8, as the code has it.  Take a library whose comparisons order the
    numbers that are not NaN ([Ordered]) and whose [pairwise_distances]
    returns one row per point with one entry per centroid ([Shaped]), and a
    Centroid Set that is not empty.  [assign_clusters] raises what
    [pairwise_distances] raises.  Otherwise it returns one label per point,
    each the index of a centroid: the position [np.argmin] finds in the
    point's row of the distances that [pairwise_distances] computed.  That
    is the position of the first NaN of the row or, in a row without NaN,
    the first position of the least computed distance: no entry of the row
    is below it and every earlier entry is above it. *)
Theorem assign_clusters_first_minimum_of_computed_distances
  (L : Library) (data centroids : list (list (num L))) :
  Ordered L -> Shaped L -> centroids <> [] ->
  match pairwise_distances L data centroids with
  | Raise e => assign_clusters L data centroids = Raise e
  | Ok distances =>
      exists a,
        assign_clusters L data centroids = Ok a /\ length a = length data /\
        forall j row, distances !! j = Some row ->
          exists r, a !! j = Some r /\ (r < length centroids)%nat /\
                    argmin_of L row r
  end.
Proof.
  intros HO HS Hne. unfold assign_clusters.
  destruct (pairwise_distances L data centroids) as [D|e] eqn:HD; [|done].
  cbn [mbind result_bind].
  destruct (pairwise_distances_shape L HS _ _ _ HD) as [Hlen Hrows].
  destruct (argmin_axis1_argmin_of L HO D) as (a & Ha & Hall).
  { eapply Forall_impl; [exact Hrows|]. intros row Hrow ->.
    by destruct centroids. }
  exists a. split; [done|].
  split; [by rewrite <- Hlen, (Forall2_length _ _ _ Hall)|].
  intros j row Hj.
  destruct (Forall2_lookup_l _ _ _ _ _ Hall Hj) as (r & Hr & Hmin).
  exists r. split; [done|]. split; [|done].
  rewrite Forall_forall in Hrows.
  rewrite <- (Hrows row) by (by eapply list_elem_of_lookup_2).
  by eapply argmin_of_lt.
Qed.

Lemma assign_clusters_first_minimum_of_computed_distances_witness :
  exists a,
    assign_clusters binary64 [[0]; [1]; [10]; [11]]%float [[0]; [10]]%float = Ok a /\
    length a = length [[0]; [1]; [10]; [11]]%float /\
    forall j row, [[0; 10]; [1; 9]; [10; 0]; [11; 1]]%float !! j = Some row ->
      exists r, a !! j = Some r /\ (r < length [[0]; [10]]%float)%nat /\
                argmin_of binary64 row r.
Proof.
  exact (assign_clusters_first_minimum_of_computed_distances binary64
           [[0]; [1]; [10]; [11]]%float [[0]; [10]]%float
           binary64_ordered binary64_shaped ltac:(discriminate)).
Defined.

(** C8 as stated fails.  The point [1e8] coincides with the second centroid
    and lies at distance 1 from the first, [1e8 + 1]; both computed
    distances are [0.0], and the point is given to the first centroid.  And
    an empty dataset, or a dataset of another dimension than the centroids,
    is refused with an exception. *)
Lemma assign_clusters_nearest_counterexample :
  pairwise_distances binary64 [[100000000]]%float [[100000001]; [100000000]]%float
    = Ok [[0; 0]]%float /\
  assign_clusters binary64 [[100000000]]%float [[100000001]; [100000000]]%float
    = Ok [0%nat] /\
  (100000001 - 100000000 = 1)%float /\
  assign_clusters binary64 [] [[0]]%float = Raise ValueError /\
  assign_clusters binary64 [[0; 1]]%float [[0]]%float = Raise ValueError.
Proof. repeat split; reflexivity. Qed.

(** ** Heterogeneity over computed distances *)

Lemma heterogeneity_loop_not_negative (L : Library) (HS : Summing L)
  (select : nat -> result (list (list (num L)))) (centroids : list (list (num L)))
  (clusters : list nat) :
  forall h0 h,
    not_negative L h0 ->
    heterogeneity_loop L select centroids clusters h0 = Ok h ->
    not_negative L h.
Proof.
  induction clusters as [|i clusters IH]; intros h0 h Hh0; cbn [heterogeneity_loop].
  - by intros [= <-].
  - destruct (select i) as [m|]; [|done]. cbn [mbind result_bind].
    destruct (0 <? length m)%nat; [|by apply IH].
    destruct (row_at L centroids i) as [c|]; [|done]. cbn [mbind result_bind].
    destruct (pairwise_distances L m [c]) as [D|]; [|done]. cbn [mbind result_bind].
    apply IH. apply (add_not_negative L HS); [done|].
    apply (np_sum_not_negative L HS).
    apply Forall_forall. intros row Hrow. apply list_elem_of_fmap in Hrow as (row' & -> & _).
    apply Forall_forall. intros x Hx. apply list_elem_of_fmap in Hx as (x' & -> & _).
    apply (square_not_negative L HS).
Qed.

(** C7, as the code has it.  In a library where squares and sums of numbers
    that are not negative are not negative ([Summing]), every value
    [compute_heterogeneity] returns is at least [0.0] or is NaN: it is a sum
    of squares of the distances that [pairwise_distances] computed.  The
    statement says nothing of the points when the value is [0.0]. *)
Theorem compute_heterogeneity_not_negative
  (L : Library) (data : list (list (num L))) (k : Z)
  (centroids : list (list (num L))) (cluster_assignment : list nat) (h : num L) :
  Summing L ->
  compute_heterogeneity L data k centroids cluster_assignment = Ok h ->
  not_negative L h.
Proof.
  intros HS. unfold compute_heterogeneity.
  apply heterogeneity_loop_not_negative; [done|]. apply (zero_not_negative L HS).
Qed.

Lemma compute_heterogeneity_not_negative_witness :
  compute_heterogeneity binary64 [[0]; [1]; [10]; [11]]%float 2
    [[0.5]; [10.5]]%float [0; 0; 1; 1]%nat = Ok 1%float /\
  not_negative binary64 1%float.
Proof.
  split; [reflexivity|].
  apply (compute_heterogeneity_not_negative binary64
           [[0]; [1]; [10]; [11]]%float 2 [[0.5]; [10.5]]%float [0; 0; 1; 1]%nat).
  - exact binary64_summing.
  - reflexivity.
Defined.

(** C7 as stated fails.  The heterogeneity of the single point [1e8] with
    the centroid [1e8 + 1], at distance 1, is computed as [0.0].  And the
    heterogeneity of the point [2^700] with itself as centroid is NaN, which
    is not [>= 0]: the squares overflow to infinity and cancel to NaN. *)
Lemma compute_heterogeneity_zero_apart_counterexample :
  compute_heterogeneity binary64 [[100000000]]%float 1 [[100000001]]%float [0%nat]
    = Ok 0%float /\
  (100000001 - 100000000 = 1)%float /\
  match compute_heterogeneity binary64 [[0x1p+700]]%float 1 [[0x1p+700]]%float [0%nat] with
  | Ok h => is_nan binary64 h = true /\ geb binary64 h (zero binary64) = false
  | Raise _ => False
  end.
Proof. repeat split; reflexivity. Qed.

(** ** What the loop records *)

Lemma kmeans_loop_records_iterations (L : Library)
  (data : list (list (num L))) (k : Z) (fuel : nat) :
  forall itr centroids prev cur history,
    exists vals,
      snd (kmeans_loop L data k fuel itr centroids prev cur (Some history))
        = Some (history ++ vals) /\
      (length vals <= fuel)%nat /\
      Forall (heterogeneity_of_iteration L data k) vals.
Proof.
  induction fuel as [|fuel IH]; intros itr centroids prev cur history;
    cbn [kmeans_loop].
  - exists []. rewrite app_nil_r. by repeat split.
  - assert (exists vals : list (num L),
              Some history = Some (history ++ vals) /\ (length vals <= S fuel)%nat /\
              Forall (heterogeneity_of_iteration L data k) vals) as Hstop.
    { exists []. rewrite app_nil_r. repeat split; [simpl; lia | done]. }
    destruct (assign_clusters L data centroids) as [a|] eqn:Ha; [|exact Hstop].
    destruct (revise_centroids L data k a) as [c'|] eqn:Hc; [|exact Hstop].
    destruct (match prev with Some p => all_equal p a | None => false end);
      [exact Hstop|].
    destruct (compute_heterogeneity L data k c' a) as [score|] eqn:Hs; [|exact Hstop].
    destruct (IH (S itr) c' (Some a) (Some a) (history ++ [score]))
      as (vals & Hvals & Hlen & Hall).
    exists (score :: vals). rewrite Hvals, <- app_assoc. split; [done|].
    split; [simpl; lia|]. constructor; [|done]. by exists centroids, a, c'.
Qed.

(** C2, as the code has it.  With recording on, [run_kmeans] appends at most
    [maxiter] values to the caller's list, whether it returns or raises.
    Each is the heterogeneity of an assignment the loop made and of the
    centroids revised from it, and so, in a library where squares and sums
    of numbers that are not negative are not negative ([Summing]), is at
    least [0.0] or NaN.  The statement does not order a recorded value with
    the next one. *)
Theorem run_kmeans_records_heterogeneities_of_iterations
  (L : Library) (data : list (list (num L))) (k : Z)
  (initial_centroids : list (list (num L))) (maxiter : Z)
  (history : list (num L)) :
  Summing L ->
  exists vals,
    snd (run_kmeans L data k initial_centroids maxiter (Some history))
      = Some (history ++ vals) /\
    (length vals <= Z.to_nat maxiter)%nat /\
    Forall (fun v => heterogeneity_of_iteration L data k v /\ not_negative L v) vals.
Proof.
  intros HS.
  destruct (kmeans_loop_records_iterations L data k (Z.to_nat maxiter) 0
              initial_centroids None None history) as (vals & Hvals & Hlen & Hall).
  exists vals. split; [|split; [done|]].
  - unfold run_kmeans, run_loop.
    by destruct (kmeans_loop L data k (Z.to_nat maxiter) 0 initial_centroids
                   None None (Some history)) as [r h].
  - eapply Forall_impl; [exact Hall|]. intros v Hv. split; [done|].
    destruct Hv as (c & a & c' & _ & _ & Hv).
    eapply heterogeneity_loop_not_negative; [done| |exact Hv].
    apply (zero_not_negative L HS).
Qed.

Lemma run_kmeans_records_heterogeneities_of_iterations_witness :
  exists vals,
    snd (run_kmeans binary64 [[0]; [1]; [10]; [11]]%float 2 [[0]; [10]]%float 5 (Some []))
      = Some ([] ++ vals) /\
    (length vals <= Z.to_nat 5)%nat /\
    Forall (fun v => heterogeneity_of_iteration binary64 [[0]; [1]; [10]; [11]]%float 2 v /\
                     not_negative binary64 v) vals.
Proof.
  apply (run_kmeans_records_heterogeneities_of_iterations binary64
           [[0]; [1]; [10]; [11]]%float 2 [[0]; [10]]%float 5 []).
  exact binary64_summing.
Defined.

(** C2 as stated fails.  On four points near [1e8], with two of them as
    initial centroids, the values recorded are [0.0] and then [4.0]: the
    first is the rounded heterogeneity of a clustering whose heterogeneity
    is 2.5.  And with two initial centroids for [k = 1] the first iteration
    uses two centroids and the second one: the values recorded are 2 and
    then 404. *)
Lemma run_kmeans_recorded_values_increase_counterexample :
  snd (run_kmeans binary64
         [[100000000]; [100000001]; [100000002]; [100000004]]%float 2
         [[100000004]; [100000000]]%float 5 (Some []))
    = Some [0; 4]%float /\
  snd (run_kmeans binary64 [[0]; [2]; [20]; [22]]%float 1 [[1]; [21]]%float 5 (Some []))
    = Some [2; 404]%float.
Proof. split; reflexivity. Qed.

(** ** The driver over computed heterogeneities *)

Section DriverFacts.

Context (L : Library) (HO : Ordered L) (G : Generator).
Context (ur : list (list (num L)) -> result (list (list (num L)))).

Lemma record_trial_heterogeneity (st : driver_state L G) (seed : Z)
  (c : list (list (num L))) (a : option (list nat)) (h : num L) (g : gstate G) :
  heterogeneity L G (record_trial L G st seed c a h g)
    = <[seed := h]> (heterogeneity L G st).
Proof. unfold record_trial. by destruct (ltb L h _). Qed.

(** The state the driver is entered with only matters through the generator,
    which the first run replaces. *)
Lemma record_trial_driver_init (g g' g1 : gstate G) (seed : Z)
  (c : list (list (num L))) (a : option (list nat)) (h : num L) :
  record_trial L G (driver_init L G g) seed c a h g1
    = record_trial L G (driver_init L G g') seed c a h g1.
Proof. unfold record_trial, driver_init. cbn. by destruct (ltb L h _). Qed.

Lemma kept_so_far_init (g : gstate G) : kept_so_far L G [] [] (driver_init L G g).
Proof. left. split; [constructor | done]. Qed.

Lemma record_trial_kept (seeds : list Z)
  (done : list (list (list (num L)) * option (list nat) * num L * gstate G))
  (st : driver_state L G) (seed : Z) (c : list (list (num L)))
  (a : option (list nat)) (h : num L) (g : gstate G) :
  length seeds = length done ->
  kept_so_far L G seeds done st ->
  kept_so_far L G (seeds ++ [seed]) (done ++ [(c, a, h, g)])
    (record_trial L G st seed c a h g).
Proof.
  intros Hlen Hkept. unfold record_trial. unfold kept_so_far in Hkept |- *.
  set (hs := map (heterogeneity_of_run L) done) in *.
  assert (map (heterogeneity_of_run L) (done ++ [(c, a, h, g)]) = hs ++ [h]) as Hmap
    by (by rewrite map_app).
  assert (length hs = length done) as Hhs by apply length_map.
  destruct Hkept as [(Hnone & Hm & Hs & Hc & Ha)|
                     (b & s & cb & ab & hb & gb & Hsb & Hb & Hlow & Hm & Hs & Hc & Ha)].
  - rewrite Hm. destruct (ltb L h (inf L)) eqn:Hh.
    + right. exists (length done), seed, c, a, h, g.
      split; [by rewrite <- Hlen, list_lookup_middle|].
      split; [by rewrite list_lookup_middle|]. split; [|done].
      rewrite Hmap, <- Hhs. exists h. split; [by rewrite list_lookup_middle|].
      split; [done|]. split.
      * intros j w Hj. apply lookup_app_Some in Hj as [Hj|[_ Hj]].
        -- destruct (ltb L w h) eqn:Hwh; [|done].
           unfold none_below_inf in Hnone. rewrite Forall_forall in Hnone.
           rewrite <- (Hnone w) by (by eapply list_elem_of_lookup_2).
           symmetry. by apply (ltb_trans L HO w h (inf L)).
        -- apply list_lookup_singleton_Some in Hj as [_ <-]. apply (ltb_irrefl L HO).
      * intros j w Hj Hw. right. rewrite lookup_app_l in Hw by done.
        unfold none_below_inf in Hnone. rewrite Forall_forall in Hnone.
        apply Hnone. by eapply list_elem_of_lookup_2.
    + left. rewrite Hmap. split; [|done].
      apply Forall_app. split; [done|]. by constructor.
  - destruct Hlow as (v & Hv & Hvinf & Hmin & Hfirst).
    assert (hs !! b = Some hb) as Hrow
      by (subst hs; by rewrite list_lookup_fmap, Hb).
    rewrite Hrow in Hv. injection Hv as <-.
    rewrite Hm. destruct (ltb L h hb) eqn:Hh.
    + right. exists (length done), seed, c, a, h, g.
      split; [by rewrite <- Hlen, list_lookup_middle|].
      split; [by rewrite list_lookup_middle|]. split; [|done].
      rewrite Hmap, <- Hhs. exists h. split; [by rewrite list_lookup_middle|].
      split; [by apply (ltb_trans L HO h hb (inf L))|]. split.
      * intros j w Hj. apply lookup_app_Some in Hj as [Hj|[_ Hj]].
        -- destruct (ltb L w h) eqn:Hwh; [|done].
           rewrite <- (Hmin _ _ Hj). symmetry. by apply (ltb_trans L HO w h hb).
        -- apply list_lookup_singleton_Some in Hj as [_ <-]. apply (ltb_irrefl L HO).
      * intros j w Hj Hw. rewrite lookup_app_l in Hw by done.
        destruct (is_nan L w) eqn:Hwn; [right; by apply (ltb_nan L HO)|].
        destruct (ltb_split L HO h hb w Hh Hwn) as [H|H]; [by left|].
        by rewrite (Hmin _ _ Hw) in H.
    + right. exists b, s, cb, ab, hb, gb.
      split; [by apply lookup_app_l_Some|].
      split; [by apply lookup_app_l_Some|]. split; [|done].
      rewrite Hmap. exists hb. split; [by apply lookup_app_l_Some|].
      split; [done|]. split.
      * intros j w Hj. apply lookup_app_Some in Hj as [Hj|[_ Hj]]; [eauto|].
        by apply list_lookup_singleton_Some in Hj as [_ <-].
      * intros j w Hj Hw. apply lookup_lt_Some in Hrow.
        rewrite lookup_app_l in Hw by lia. eauto.
Qed.

Context (data : list (list (num L))) (k maxiter : Z) (now : nat -> Z).

(** Runs that all complete: the loop over their positions in the seed list
    ends with the lowest of them kept. *)
Lemma driver_loop_all_kept (seeds : list Z)
  (rs : list (list (list (num L)) * option (list nat) * num L * gstate G)) :
  Forall2 (fun s r => trial L G ur data k maxiter s = Ok r) seeds rs ->
  forall (pre post : list Z) done st,
    length pre = length done ->
    kept_so_far L G pre done st ->
    exists st',
      driver_loop L G ur data k maxiter (Some (pre ++ seeds ++ post)) now
        (seq (length pre) (length seeds)) st = Ok st' /\
      kept_so_far L G (pre ++ seeds) (done ++ rs) st'.
Proof.
  induction 1 as [|s [[[c a] h] g] seeds rs Hs _ IH];
    intros pre post done st Hlen Hkept.
  - exists st. rewrite !app_nil_r. by split.
  - cbn [length seq driver_loop trial_seed]. cbn [app].
    rewrite list_lookup_middle by done. cbn [mbind result_bind].
    rewrite Hs. cbn [mbind result_bind].
    destruct (IH (pre ++ [s]) post (done ++ [(c, a, h, g)])
                (record_trial L G st s c a h g)) as (st' & Hst' & Hk').
    { rewrite !length_app. simpl. lia. }
    { by apply record_trial_kept. }
    exists st'. rewrite <- !app_assoc in *. cbn [app] in *.
    rewrite length_app in Hst'. cbn [length] in Hst'.
    replace (length pre + 1)%nat with (S (length pre)) in Hst' by lia.
    by split.
Qed.

Lemma run_driver_all_kept (used post : list Z)
  (rs : list (list (list (num L)) * option (list nat) * num L * gstate G))
  (g : gstate G) :
  Forall2 (fun s r => trial L G ur data k maxiter s = Ok r) used rs ->
  exists st',
    run_driver L G ur data k maxiter (Z.of_nat (length used)) (Some (used ++ post))
      now g = Ok st' /\
    kept_so_far L G used rs st'.
Proof.
  intros Hok. unfold run_driver. rewrite Nat2Z.id.
  destruct (driver_loop_all_kept used rs Hok [] post [] (driver_init L G g))
    as (st' & Hst' & Hk); [done | apply kept_so_far_init |].
  by exists st'.
Qed.

(** Repeating a run changes nothing but the table entry and the generator. *)
Lemma driver_loop_same_trial (seed_list : option (list Z)) (t : Z)
  (c : list (list (num L))) (a : option (list nat)) (h : num L) (g' : gstate G)
  (trials : list nat) (st : driver_state L G) :
  Forall (fun i => trial_seed seed_list now i = Ok t) trials ->
  trial L G ur data k maxiter t = Ok (c, a, h, g') ->
  ltb L h (min_heterogeneity_achieved L G st) = false ->
  exists st', driver_loop L G ur data k maxiter seed_list now trials st = Ok st' /\
              final_centroids L G st' = final_centroids L G st /\
              final_cluster_assignment L G st' = final_cluster_assignment L G st.
Proof.
  intros Hseeds Ht. revert st.
  induction Hseeds as [|i trials Hi _ IH]; intros st Hm; cbn [driver_loop].
  - by exists st.
  - rewrite Hi. cbn [mbind result_bind]. rewrite Ht. cbn [mbind result_bind].
    destruct (IH (record_trial L G st t c a h g')) as (st' & Hst' & Hc & Ha).
    { unfold record_trial. by rewrite Hm. }
    exists st'. split; [done|]. rewrite Hc, Ha. unfold record_trial. by rewrite Hm.
Qed.

End DriverFacts.

(** C9, as the code has it, in a library whose comparisons order the numbers
    that are not NaN ([Ordered]).  Called with the seed list [1, 2, 3] and
    three runs, each of which completes, the driver evaluates the seeds 1, 2
    and 3 and no other: its table of heterogeneities has exactly these keys,
    and neither the clock nor the generator state it is entered with has
    any influence on what it computes.  A run is kept when its heterogeneity is
    below the lowest kept so far, [float('inf')] at the start.  So either no
    heterogeneity of the three is below [inf] and the driver returns
    [(None, None)], or it returns the centroids and the assignment of a run
    whose heterogeneity is below [inf], which no heterogeneity of the three
    is below, and which comes first among such runs: every earlier run has a
    heterogeneity above it, or NaN, or infinite. *)
Theorem kmeans_multiple_runs_seeds_1_2_3_first_lowest
  (L : Library) (G : Generator)
  (ur : list (list (num L)) -> result (list (list (num L))))
  (data : list (list (num L))) (k maxiter : Z) (now : nat -> Z) (g : gstate G)
  (c1 c2 c3 : list (list (num L))) (a1 a2 a3 : option (list nat))
  (h1 h2 h3 : num L) (g1 g2 g3 : gstate G) :
  Ordered L ->
  trial L G ur data k maxiter 1 = Ok (c1, a1, h1, g1) ->
  trial L G ur data k maxiter 2 = Ok (c2, a2, h2, g2) ->
  trial L G ur data k maxiter 3 = Ok (c3, a3, h3, g3) ->
  exists st,
    run_driver L G ur data k maxiter 3 (Some [1; 2; 3]%Z) now g = Ok st /\
    (forall now' g',
       run_driver L G ur data k maxiter 3 (Some [1; 2; 3]%Z) now' g' = Ok st) /\
    heterogeneity L G st = <[3%Z := h3]> (<[2%Z := h2]> (<[1%Z := h1]> ∅)) /\
    dom (heterogeneity L G st) = ({[1%Z; 2%Z; 3%Z]} : gset Z) /\
    ((none_below_inf L [h1; h2; h3] /\ best_seed L G st = None /\
      kmeans_multiple_runs L G ur data k maxiter 3 (Some [1; 2; 3]%Z) now g
        = Ok (None, None)) \/
     (exists b cb ab hb,
        [(c1, a1, h1); (c2, a2, h2); (c3, a3, h3)] !! b = Some (cb, ab, hb) /\
        lowest_first L [h1; h2; h3] b /\
        best_seed L G st = Some (Z.of_nat b + 1)%Z /\
        kmeans_multiple_runs L G ur data k maxiter 3 (Some [1; 2; 3]%Z) now g
          = Ok (Some cb, ab))).
Proof.
  intros HO T1 T2 T3.
  set (st := record_trial L G
               (record_trial L G
                  (record_trial L G (driver_init L G g) 1 c1 a1 h1 g1) 2 c2 a2 h2 g2)
               3 c3 a3 h3 g3).
  assert (forall now' g',
            run_driver L G ur data k maxiter 3 (Some [1; 2; 3]%Z) now' g' = Ok st)
    as Hrun.
  { intros now' g'. unfold run_driver. change (Z.to_nat 3) with 3%nat.
    cbn [seq driver_loop trial_seed]. cbn [lookup list_lookup mbind result_bind].
    rewrite T1. cbn [mbind result_bind]. rewrite T2. cbn [mbind result_bind].
    rewrite T3. cbn [mbind result_bind]. subst st.
    by rewrite (record_trial_driver_init L G g' g). }
  assert (kept_so_far L G [1; 2; 3]%Z [(c1, a1, h1, g1); (c2, a2, h2, g2); (c3, a3, h3, g3)] st)
    as Hkept.
  { subst st.
    apply (record_trial_kept L HO G [1; 2]%Z [(c1, a1, h1, g1); (c2, a2, h2, g2)]); [done|].
    apply (record_trial_kept L HO G [1]%Z [(c1, a1, h1, g1)]); [done|].
    apply (record_trial_kept L HO G [] []); [done|]. apply kept_so_far_init. }
  exists st. split; [apply Hrun|]. split; [exact Hrun|].
  assert (heterogeneity L G st = <[3%Z := h3]> (<[2%Z := h2]> (<[1%Z := h1]> ∅)))
    as Htable by (subst st; by rewrite !record_trial_heterogeneity).
  split; [done|]. split; [rewrite Htable, !dom_insert_L; set_solver|].
  unfold kmeans_multiple_runs. rewrite Hrun. cbn [mbind result_bind].
  destruct Hkept as [(Hnone & _ & Hs & -> & ->)|
                     (b & s & cb & ab & hb & gb & Hsb & Hb & Hlow & _ & Hs & -> & ->)].
  - left. by repeat split.
  - right. exists b, cb, ab, hb. split.
    { destruct b as [|[|[|b]]]; simpl in Hb |- *; try done; by injection Hb as <- <- <- _. }
    split; [done|]. split; [|done]. rewrite Hs. f_equal.
    destruct b as [|[|[|b]]]; simpl in Hsb; try done; injection Hsb as <-; lia.
Qed.

Lemma kmeans_multiple_runs_seeds_1_2_3_first_lowest_witness :
  exists st,
    run_driver binary64 digits selects_no_row [[0]; [1]; [10]]%float 2 5 3
      (Some [1; 2; 3]%Z) ticking 0%Z = Ok st /\
    (forall now' g',
       run_driver binary64 digits selects_no_row [[0]; [1]; [10]]%float 2 5 3
         (Some [1; 2; 3]%Z) now' g' = Ok st) /\
    heterogeneity binary64 digits st
      = <[3%Z := 0.5%float]> (<[2%Z := 0.5%float]> (<[1%Z := 0.5%float]> ∅)) /\
    dom (heterogeneity binary64 digits st) = ({[1%Z; 2%Z; 3%Z]} : gset Z) /\
    ((none_below_inf binary64 [0.5; 0.5; 0.5]%float /\
      best_seed binary64 digits st = None /\
      kmeans_multiple_runs binary64 digits selects_no_row [[0]; [1]; [10]]%float 2 5 3
        (Some [1; 2; 3]%Z) ticking 0%Z = Ok (None, None)) \/
     (exists b cb ab hb,
        [([[10]; [0.5]]%float, Some [1; 1; 0]%nat, 0.5%float);
         ([[10]; [0.5]]%float, Some [1; 1; 0]%nat, 0.5%float);
         ([[0.5]; [10]]%float, Some [0; 0; 1]%nat, 0.5%float)] !! b
          = Some (cb, ab, hb) /\
        lowest_first binary64 [0.5; 0.5; 0.5]%float b /\
        best_seed binary64 digits st = Some (Z.of_nat b + 1)%Z /\
        kmeans_multiple_runs binary64 digits selects_no_row [[0]; [1]; [10]]%float 2 5 3
          (Some [1; 2; 3]%Z) ticking 0%Z = Ok (Some cb, ab))).
Proof.
  apply (kmeans_multiple_runs_seeds_1_2_3_first_lowest binary64 digits selects_no_row
           [[0]; [1]; [10]]%float 2 5 ticking 0%Z
           _ _ _ _ _ _ _ _ _ 0%Z 0%Z 0%Z binary64_ordered); reflexivity.
Defined.

(** C9 as stated fails.  On three equal points and [k = 2] every run leaves
    the second cluster empty and the driver raises.  And on the two points
    [2^700] and [-2^700] with [k = 1] the three runs complete, each with the
    heterogeneity [inf], which is not below [float('inf')]: no run is kept
    and the driver returns [(None, None)]. *)
Lemma kmeans_multiple_runs_seeds_1_2_3_counterexample :
  kmeans_multiple_runs binary64 digits selects_no_row [[5]; [5]; [5]]%float 2 5 3
    (Some [1; 2; 3]%Z) ticking 0%Z = Raise ZeroDivisionError /\
  trial binary64 digits selects_no_row [[0x1p+700]; [-0x1p+700]]%float 1 5 1
    = Ok ([[0]]%float, Some [0; 0]%nat, infinity, 0%Z) /\
  trial binary64 digits selects_no_row [[0x1p+700]; [-0x1p+700]]%float 1 5 2
    = Ok ([[0]]%float, Some [0; 0]%nat, infinity, 1%Z) /\
  trial binary64 digits selects_no_row [[0x1p+700]; [-0x1p+700]]%float 1 5 3
    = Ok ([[0]]%float, Some [0; 0]%nat, infinity, 1%Z) /\
  kmeans_multiple_runs binary64 digits selects_no_row [[0x1p+700]; [-0x1p+700]]%float
    1 5 3 (Some [1; 2; 3]%Z) ticking 0%Z = Ok (None, None).
Proof. repeat split; reflexivity. Qed.

(** X17.  In a library whose comparisons order the numbers that are not NaN
    ([Ordered]), for any seed list: when the first [num_runs] seeds of the
    list all give runs that complete, [kmeans_multiple_runs] returns
    [(None, None)]
    if no run has a heterogeneity below [float('inf')], and otherwise the
    centroids and the assignment of the first of the runs whose
    heterogeneity is below [inf] and has none of the others below it; seeds
    beyond the first [num_runs] are not used. *)
Theorem kmeans_multiple_runs_keeps_first_lowest
  (L : Library) (G : Generator)
  (ur : list (list (num L)) -> result (list (list (num L))))
  (data : list (list (num L))) (k maxiter : Z) (now : nat -> Z) (g : gstate G)
  (used post : list Z)
  (rs : list (list (list (num L)) * option (list nat) * num L * gstate G)) :
  Ordered L ->
  Forall2 (fun s r => trial L G ur data k maxiter s = Ok r) used rs ->
  (none_below_inf L (map (heterogeneity_of_run L) rs) /\
   kmeans_multiple_runs L G ur data k maxiter (Z.of_nat (length used))
     (Some (used ++ post)) now g = Ok (None, None)) \/
  (exists b c a h g',
     rs !! b = Some (c, a, h, g') /\
     lowest_first L (map (heterogeneity_of_run L) rs) b /\
     kmeans_multiple_runs L G ur data k maxiter (Z.of_nat (length used))
       (Some (used ++ post)) now g = Ok (Some c, a)).
Proof.
  intros HO Hok.
  destruct (run_driver_all_kept L HO G ur data k maxiter now used post rs g Hok)
    as (st' & Hrun & Hkept).
  unfold kmeans_multiple_runs. rewrite Hrun. cbn [mbind result_bind].
  destruct Hkept as [(Hnone & _ & _ & -> & ->)|
                     (b & s & c & a & h & g' & _ & Hb & Hlow & _ & _ & -> & ->)].
  - by left.
  - right. by exists b, c, a, h, g'.
Qed.

Lemma kmeans_multiple_runs_keeps_first_lowest_witness :
  (none_below_inf binary64
     (map (heterogeneity_of_run binary64)
        [([[10]; [0.5]]%float, Some [1; 1; 0]%nat, 0.5%float, 0%Z);
         ([[10]; [0.5]]%float, Some [1; 1; 0]%nat, 0.5%float, 0%Z)]) /\
   kmeans_multiple_runs binary64 digits selects_no_row [[0]; [1]; [10]]%float 2 5
     (Z.of_nat (length [1; 2]%Z)) (Some ([1; 2] ++ [5; -1])%Z) ticking 0%Z
     = Ok (None, None)) \/
  (exists b c a h g',
     [([[10]; [0.5]]%float, Some [1; 1; 0]%nat, 0.5%float, 0%Z);
      ([[10]; [0.5]]%float, Some [1; 1; 0]%nat, 0.5%float, 0%Z)] !! b
       = Some (c, a, h, g') /\
     lowest_first binary64
       (map (heterogeneity_of_run binary64)
          [([[10]; [0.5]]%float, Some [1; 1; 0]%nat, 0.5%float, 0%Z);
           ([[10]; [0.5]]%float, Some [1; 1; 0]%nat, 0.5%float, 0%Z)]) b /\
     kmeans_multiple_runs binary64 digits selects_no_row [[0]; [1]; [10]]%float 2 5
       (Z.of_nat (length [1; 2]%Z)) (Some ([1; 2] ++ [5; -1])%Z) ticking 0%Z
       = Ok (Some c, a)).
Proof.
  apply (kmeans_multiple_runs_keeps_first_lowest binary64 digits selects_no_row
           [[0]; [1]; [10]]%float 2 5 ticking 0%Z [1; 2]%Z [5; -1]%Z).
  - exact binary64_ordered.
  - repeat constructor.
Defined.

(** X20.  Without a seed list every trial is seeded with the clock reading
    in whole seconds, so trials that read the same second are one and the
    same run: when the clock gives the reading [t] to all [num_runs >= 1]
    trials and the run of seed [t] completes, [kmeans_multiple_runs] returns
    the centroids and assignment of that single run if its heterogeneity is
    below [float('inf')], and [(None, None)] if it is not. *)
Theorem kmeans_multiple_runs_unseeded_same_second_one_run
  (L : Library) (G : Generator)
  (ur : list (list (num L)) -> result (list (list (num L))))
  (data : list (list (num L))) (k maxiter num_runs : Z) (now : nat -> Z)
  (g g' : gstate G) (t : Z) (c : list (list (num L))) (a : option (list nat))
  (h : num L) :
  Ordered L ->
  (1 <= num_runs)%Z ->
  (forall i, now i = t) ->
  trial L G ur data k maxiter t = Ok (c, a, h, g') ->
  kmeans_multiple_runs L G ur data k maxiter num_runs None now g
    = Ok (if ltb L h (inf L) then (Some c, a) else (None, None)).
Proof.
  intros HO Hn Hnow Ht. unfold kmeans_multiple_runs, run_driver.
  destruct (Z.to_nat num_runs) as [|n] eqn:E; [lia|].
  cbn [seq driver_loop trial_seed]. rewrite Hnow. cbn [mbind result_bind].
  rewrite Ht. cbn [mbind result_bind].
  destruct (driver_loop_same_trial L G ur data k maxiter now None t c a h g' (seq 1 n)
              (record_trial L G (driver_init L G g) t c a h g'))
    as (st' & -> & Hc & Ha); try done.
  - apply Forall_forall. intros i _. cbn [trial_seed]. by rewrite Hnow.
  - unfold record_trial, driver_init. cbn.
    destruct (ltb L h (inf L)) eqn:Hh; cbn; [apply (ltb_irrefl L HO) | done].
  - cbn [mbind result_bind]. rewrite Hc, Ha. unfold record_trial, driver_init. cbn.
    by destruct (ltb L h (inf L)).
Qed.

Lemma kmeans_multiple_runs_unseeded_same_second_one_run_witness :
  kmeans_multiple_runs binary64 digits selects_no_row [[0]; [1]; [10]]%float 2 5 4
    None (fun _ => 1700000002%Z) 0%Z
    = Ok (if ltb binary64 0.5%float (inf binary64)
          then (Some [[10]; [0.5]]%float, Some [1; 1; 0]%nat) else (None, None)).
Proof.
  apply (kmeans_multiple_runs_unseeded_same_second_one_run binary64 digits selects_no_row
           [[0]; [1]; [10]]%float 2 5 4 (fun _ => 1700000002%Z) 0%Z 188888889%Z
           1700000002%Z).
  - exact binary64_ordered.
  - lia.
  - done.
  - reflexivity.
Defined.

(** X21.  On an empty dataset, with an acceptable seed,
    [get_initial_centroids] returns the empty Centroid Set for [k = 0] and
    raises [ValueError] for every other [k]: the sampler returns no index
    when none is asked for and refuses the empty range otherwise. *)
Theorem get_initial_centroids_on_empty_dataset
  (L : Library) (G : Generator) (k : Z) (seed : option Z) (g : gstate G) :
  seed_ok seed ->
  exists g1,
    seed_if_given G seed g = Ok g1 /\
    get_initial_centroids L G [] k seed g
      = if (k =? 0)%Z then Ok ([], g1) else Raise ValueError.
Proof.
  intros Hseed. destruct (seed_if_given_ok G seed g Hseed) as [g1 Hg1].
  exists g1. split; [done|]. unfold get_initial_centroids.
  rewrite Hg1. cbn [mbind result_bind]. unfold randint. cbn [length].
  destruct (k <? 0)%Z eqn:Hneg.
  - apply Z.ltb_lt in Hneg. by replace (k =? 0)%Z with false by (symmetry; lia).
  - by destruct (k =? 0)%Z.
Qed.

Lemma get_initial_centroids_on_empty_dataset_witness :
  exists g1,
    seed_if_given digits (Some 11%Z) 0%Z = Ok g1 /\
    get_initial_centroids binary64 digits [] 0 (Some 11%Z) 0%Z
      = if (0 =? 0)%Z then Ok ([], g1) else Raise ValueError.
Proof.
  apply (get_initial_centroids_on_empty_dataset binary64 digits 0 (Some 11%Z) 0%Z).
  simpl. lia.
Defined.

(** X23.  Neither [revise_centroids] nor [compute_heterogeneity] checks [k].
    With [k <= 0] the loop over the clusters is empty: whatever the other
    arguments, the first returns no centroid and the second [0.0]. *)
Theorem revise_and_heterogeneity_without_clusters
  (L : Library) (data : list (list (num L))) (k : Z)
  (centroids : list (list (num L))) (cluster_assignment : list nat) :
  (k <= 0)%Z ->
  revise_centroids L data k cluster_assignment = Ok [] /\
  compute_heterogeneity L data k centroids cluster_assignment = Ok (zero L).
Proof.
  intros Hk. unfold revise_centroids, compute_heterogeneity.
  by replace (Z.to_nat k) with 0%nat by lia.
Qed.

Lemma revise_and_heterogeneity_without_clusters_witness :
  revise_centroids binary64 [[0]; [1]; [10]]%float (-1) [0; 1]%nat = Ok [] /\
  compute_heterogeneity binary64 [[0]; [1]; [10]]%float (-1) [[5]]%float [0; 1]%nat
    = Ok (zero binary64).
Proof.
  apply (revise_and_heterogeneity_without_clusters binary64 [[0]; [1]; [10]]%float (-1)
           [[5]]%float [0; 1]%nat).
  lia.
Defined.

End KMeans.
